(** * workspace/5_measure_onnx.ipynb: the benchmark cells, embedded and verified

    The notebook is a straight-line script: it builds a test loader, runs an
    ONNX inference session over it to count correct predictions, reads the
    size of the exported model, times single-sample and batch inference with
    [time.time()], and prints the statistics.

    Modelling choices, shared by the whole file:
    - Python floats are rationals ([Q]); a float operation whose IEEE result
      is not finite (nan, inf) yields [None].
    - Python ints and numpy integer counters are [Z]; their width is far
      beyond any dataset size and is not modelled.
    - The outside world is explicit: the readings of [time.time()] are a
      stream [clock], the session is a function [ort_session], and a cell is
      a computation of the monad [M] over the record [World], which logs
      every clock reading and every [ort_session.run] call in order. *)

From Stdlib Require Import String.
From Stdlib Require Import List ZArith QArith Qround Lia Lqa Bool PeanoNat Sorted
  Permutation DecimalString.
Import ListNotations.

Set Implicit Arguments.

(** ** Exceptions and results *)

(** The exceptions the cells can raise, and [InvalidArgument], the error
    kind of the written specification (no line of the notebook raises it). *)
Inductive exn : Type :=
| StopIteration
| ZeroDivisionError
| ValueError
| IndexError
| FileNotFoundError
| InvalidArgument.

Inductive result (A : Type) : Type :=
| Ok (a : A)
| Raise (e : exn).

Arguments Ok {A} a.
Arguments Raise {A} e.

(** ** torch.utils.data *)

Module Torch.

(** [BatchSampler.__iter__] with [drop_last=False]: indices are appended
    to [batch]; a full batch is yielded and a new one started; a last
    partial batch is yielded when it is not empty. *)
Fixpoint batch_sampler {A : Type} (batch_size : nat) (sampler : list A)
         (batch : list A) : list (list A) :=
  match sampler with
  | [] => if (0 <? length batch)%nat then [batch] else []
  | idx :: rest =>
      let batch := batch ++ [idx] in
      if (length batch =? batch_size)%nat
      then batch :: batch_sampler batch_size rest []
      else batch_sampler batch_size rest batch
  end.

(** [default_collate] on a list of (image, label) pairs: one stacked
    tensor of images and one tensor of labels, both indexed by position
    in the batch. *)
Definition default_collate {A B : Type} (samples : list (A * B))
  : list A * list B :=
  (map fst samples, map snd samples).

(** [DataLoader(dataset, batch_size=..., shuffle=False)]: the sampler is
    sequential, so a fresh iteration yields the batches of the dataset in
    dataset order (the worker count does not change the order). *)
Definition DataLoader {A B : Type} (dataset : list (A * B))
           (batch_size : nat) : list (list A * list B) :=
  map default_collate (batch_sampler batch_size dataset []).

End Torch.

(** ** Python iteration *)

(** [iter(loader)] starts a fresh pass over the loader; [next] takes the
    first remaining item or raises [StopIteration]. *)
Definition py_iter {A : Type} (loader : list A) : list A := loader.

Definition py_next {A : Type} (it : list A) : result A :=
match it with
| [] => Raise StopIteration
| x :: _ => Ok x
end.

(** ** numpy *)

Module Np.

(** [np.sum] of a sequence of floats. *)
Definition sum (a : list Q) : Q := fold_left Qplus a 0.

(** [np.argmax] of one row: the first index holding the maximum;
    [ValueError] on an empty row. *)
Fixpoint argmax_from (best : Q) (best_i i : nat) (row : list Q) : nat :=
  match row with
  | [] => best_i
  | x :: row' =>
      if Qlt_le_dec best x
      then argmax_from x i (S i) row'
      else argmax_from best best_i (S i) row'
  end.

Definition argmax (row : list Q) : result nat :=
  match row with
  | [] => Raise ValueError
  | x :: row' => Ok (argmax_from x 0%nat 1%nat row')
  end.

(** [np.argmax(outputs, axis=1)]. *)
Fixpoint argmax_axis1 (outputs : list (list Q)) : result (list nat) :=
  match outputs with
  | [] => Ok []
  | row :: rest =>
      match argmax row with
      | Raise e => Raise e
      | Ok i =>
          match argmax_axis1 rest with
          | Raise e => Raise e
          | Ok l => Ok (i :: l)
          end
      end
  end.

(** [a == b] on one-dimensional integer arrays: elementwise when the
    shapes agree, broadcast when one side has a single element,
    [ValueError] otherwise. *)
Fixpoint zip_eq (a b : list nat) : list bool :=
  match a, b with
  | x :: a', y :: b' => Nat.eqb x y :: zip_eq a' b'
  | _, _ => []
  end.

Definition equal (a b : list nat) : result (list bool) :=
  if (length a =? length b)%nat then Ok (zip_eq a b)
  else match a, b with
       | [x], _ => Ok (map (Nat.eqb x) b)
       | _, [y] => Ok (map (fun x => Nat.eqb x y) a)
       | _, _ => Raise ValueError
       end.

(** [.sum()] of a boolean array: the number of [True] entries. *)
Definition count_true (m : list bool) : Z :=
  Z.of_nat (length (filter (fun b => b) m)).

(** Insertion sort, standing for the ordering step of [np.percentile]. *)
Fixpoint insert (x : Q) (l : list Q) : list Q :=
  match l with
  | [] => [x]
  | y :: l' => if Qle_bool x y then x :: l else y :: insert x l'
  end.

Fixpoint sort (l : list Q) : list Q :=
  match l with
  | [] => []
  | x :: l' => insert x (sort l')
  end.

(** [_lerp(a, b, t)]. *)
Definition lerp (a b t : Q) : Q := a + (b - a) * t.

(** [np.percentile(a, q)] with the default method ["linear"].  numpy first
    checks that [q] is in [0, 100] and raises [ValueError] otherwise; an
    empty array then fails with [IndexError] when its last element is
    read.  Otherwise the virtual index is [(n - 1) * (q / 100)]; the
    neighbours are its floor and the next index, both clipped to the array
    ([_get_indexes]); the result interpolates between them by the
    fractional part ([_lerp] also has a second, algebraically equal form
    for [t >= 0.5]). *)
Definition previous_index (n : nat) (virtual_index : Q) : nat :=
  if Qle_bool (inject_Z (Z.of_nat n) - 1) virtual_index
  then (n - 1)%nat
  else if Qle_bool 0 virtual_index
       then Z.to_nat (Qfloor virtual_index)
       else 0%nat.

Definition linear (arr : list Q) (virtual_index : Q) : Q :=
  let n := length arr in
  let previous := previous_index n virtual_index in
  let next := Nat.min (S previous) (n - 1) in
  let gamma := virtual_index - inject_Z (Z.of_nat previous) in
  lerp (nth previous arr 0) (nth next arr 0) gamma.

Definition percentile (a : list Q) (q : Q) : result Q :=
  if Qle_bool 0 q && Qle_bool q 100 then
    match a with
    | [] => Raise IndexError
    | _ =>
        let arr := sort a in
        let n := length arr in
        Ok (linear arr ((inject_Z (Z.of_nat n) - 1) * (q / 100)))
    end
  else Raise ValueError.

(** True division of floats: a zero divisor gives a non-finite value. *)
Definition true_divide (a b : Q) : option Q :=
  if Qeq_bool b 0 then None else Some (a / b).

End Np.

(** ** Python number formatting *)

Module Py.

(** The nearest integer to a non-negative number, ties to the even one. *)
Definition round_half_even (x : Q) : Z :=
  let f := Qfloor x in
  match Qcompare (x - inject_Z f) (1 # 2) with
  | Lt => f
  | Gt => (f + 1)%Z
  | Eq => if Z.even f then f else (f + 1)%Z
  end.

Definition digits (n : Z) : string :=
  NilZero.string_of_uint (N.to_uint (Z.to_N n)).

(** [format(x, ".2f")] of a finite float: sign, integer part, a point and
    exactly two decimals, the value rounded to the nearest hundredth. *)
Definition format_2f (x : Q) : string :=
  let hundredths :=
    round_half_even ((if Qle_bool 0 x then x else - x) * 100) in
  ((if Qle_bool 0 x then "" else "-")
   ++ digits (hundredths / 100) ++ "."
   ++ (if (hundredths mod 100 <? 10)%Z then "0" else "")
   ++ digits (hundredths mod 100))%string.

(** [str(n)] of an int. *)
Definition format_int (n : Z) : string :=
  NilZero.string_of_int (Z.to_int n).

End Py.

(** ** Stub collaborators for concrete runs *)

Module Stub.

(** A clock that advances by one second between two readings. *)
Definition clock (k : nat) : Q := inject_Z (Z.of_nat k).

(** A clock that is set back by one second between two readings. *)
Definition backwards_clock (k : nat) : Q := - inject_Z (Z.of_nat k).

(** Images are numbered by their class; there are three classes. *)
Definition one_hot (c : nat) : list Q :=
  map (fun j => if Nat.eqb j c then 1 else 0) [0; 1; 2]%nat.

(** A session that scores the class of the image highest. *)
Definition oracle_session (x : list nat) : list (list Q) := map one_hot x.

(** A session that scores the next class highest. *)
Definition wrong_session (x : list nat) : list (list Q) :=
  map (fun c => one_hot ((c + 1) mod 3)) x.

(** Forty labelled images, so that the loader yields two batches. *)
Definition dataset : list (nat * nat) :=
  map (fun i => ((i mod 3)%nat, (i mod 3)%nat)) (seq 0 40).

(** A file system holding one model file of 1,048,576 bytes. *)
Definition getsize (path : string) : option Z :=
  if String.eqb path "models/food11.onnx" then Some 1048576%Z else None.

End Stub.

(** ** Collaborators that misbehave *)

Module Fault.

(** A clock too coarse to see the runs: every reading is the same. *)
Definition frozen_clock (k : nat) : Q := 1700000000 + 0 * inject_Z (Z.of_nat k).

(** A session that returns scores over zero classes (an array of shape
    (B, 0)) for every batch that holds image 7. *)
Definition no_class_session (x : list nat) : list (list Q) :=
  if existsb (Nat.eqb 7) x then map (fun _ => []) x
  else map Stub.one_hot x.

End Fault.

(** ** The world the cells run in *)

Section Notebook.

(** One pre-processed image (a 3 x 224 x 224 tensor). *)
Variable image : Type.

(** A tensor with a leading batch axis. *)
Definition tensor : Type := list image.

(** A batch as the loader yields it: images and labels. *)
Definition batch : Type := (tensor * list nat)%type.

(** [clock k] is what the [k]-th call of [time.time()] returns. *)
Variable clock : nat -> Q.

(** [ort_session.run(None, {input: x})[0]]: one row of class scores per
    input row. *)
Variable ort_session : tensor -> list (list Q).

(** [os.path.getsize]: the size in bytes of the file at a path, when there
    is one. *)
Variable getsize : string -> option Z.

Inductive event : Type :=
| Tick (k : nat)
| Run (x : tensor).

(** One fragment of an f-string: literal text, a float rendered with
    [:.2f], or an integer. *)
Inductive frag : Type :=
| Lit (s : string)
| F2 (v : option Q)
| Int (n : Z).

(** The text of a fragment and of a line; a non-finite float has a text
    too (nan, inf), which is not modelled. *)
Definition render_frag (f : frag) : option string :=
  match f with
  | Lit s => Some s
  | F2 (Some x) => Some (Py.format_2f x)
  | F2 None => None
  | Int n => Some (Py.format_int n)
  end.

Fixpoint render_line (line : list frag) : option string :=
  match line with
  | [] => Some EmptyString
  | f :: rest =>
      match render_frag f, render_line rest with
      | Some s, Some t => Some (s ++ t)%string
      | _, _ => None
      end
  end.

Record World : Type := mkWorld {
  reads : nat;
  trace : list event;
  stdout : list (list frag)
}.

Definition M (A : Type) : Type := World -> result A * World.

Definition ret {A : Type} (a : A) : M A := fun w => (Ok a, w).

Definition bind {A B : Type} (m : M A) (k : A -> M B) : M B :=
  fun w =>
    match m w with
    | (Ok a, w') => k a w'
    | (Raise e, w') => (Raise e, w')
    end.

Definition lift {A : Type} (r : result A) : M A := fun w => (r, w).

(** [time.time()]. *)
Definition time_time : M Q :=
  fun w => (Ok (clock (reads w)),
            mkWorld (S (reads w)) (trace w ++ [Tick (reads w)]) (stdout w)).

(** [ort_session.run(None, {ort_session.get_inputs()[0].name: x})]. *)
Definition session_run (x : tensor) : M (list (list Q)) :=
  fun w => (Ok (ort_session x),
            mkWorld (reads w) (trace w ++ [Run x]) (stdout w)).

(** [print(f"...")]. *)
Definition print (line : list frag) : M unit :=
  fun w => (Ok tt, mkWorld (reads w) (trace w) (stdout w ++ [line])).

(** A fresh kernel: nothing read, called or printed yet. *)
Definition fresh_world : World := mkWorld 0 [] [].

Notation "x <- m ;; k" := (bind m (fun x => k))
  (at level 61, m at next level, right associativity).

Definition os_path_getsize (path : string) : M Z :=
  match getsize path with
  | Some n => ret n
  | None => lift (Raise FileNotFoundError)
  end.

(** ** The cells *)

(** [test_loader = DataLoader(test_dataset, batch_size=32, shuffle=False,
    num_workers=4)]. *)
Definition test_loader (test_dataset : list (image * nat)) : list batch :=
  Torch.DataLoader test_dataset 32.

(** *** Test accuracy *)

(** The body of [for images, labels in test_loader]. *)
Definition accuracy_body (st : Z * Z) (b : batch) : M (Z * Z) :=
  let '(correct, total) := st in
  let '(images, labels) := b in
  outputs <- session_run images ;;
  predicted <- lift (Np.argmax_axis1 outputs) ;;
  let total := (total + Z.of_nat (length labels))%Z in
  hits <- lift (Np.equal predicted labels) ;;
  let correct := (correct + Np.count_true hits)%Z in
  ret (correct, total).

Fixpoint accuracy_loop (it : list batch) (st : Z * Z) : M (Z * Z) :=
  match it with
  | [] => ret st
  | b :: it' => st' <- accuracy_body st b ;; accuracy_loop it' st'
  end.

(** [accuracy = (correct / total) * 100]; the loader yields no empty batch,
    so [total] is zero only when no batch was seen, and both counters are
    then Python ints, whose division by zero raises. *)
Definition accuracy_cell (loader : list batch) : M (Z * Z * Q) :=
  st <- accuracy_loop (py_iter loader) (0%Z, 0%Z) ;;
  let '(correct, total) := st in
  if (total =? 0)%Z then lift (Raise ZeroDivisionError)
  else ret (correct, total, (inject_Z correct / inject_Z total) * 100).

Definition accuracy_line (accuracy : Q) (correct total : Z) : list frag :=
  [Lit "Accuracy: "; F2 (Some accuracy); Lit "% ("; Int correct; Lit "/";
   Int total; Lit " correct)"].

(** *** Model size *)

(** [model_size / (1e6)]. *)
Definition model_size_mb (model_size : Z) : option Q :=
  Np.true_divide (inject_Z model_size) 1000000.

Definition size_line (model_size : Z) : list frag :=
  [Lit "Model Size on Disk: "; F2 (model_size_mb model_size); Lit " MB"].

Definition size_cell (onnx_model_path : string) : M Z :=
  model_size <- os_path_getsize onnx_model_path ;;
  _ <- print (size_line model_size) ;;
  ret model_size.

(** *** Inference latency and batch throughput *)

(** [for _ in range(n): start_time = time.time(); run(x);
    times.append(time.time() - start_time)]. *)
Fixpoint timing_loop (n : nat) (x : tensor) (times : list Q) : M (list Q) :=
  match n with
  | O => ret times
  | S n' =>
      start_time <- time_time ;;
      _ <- session_run x ;;
      end_time <- time_time ;;
      timing_loop n' x (times ++ [end_time - start_time])
  end.

(** The latency cell: the first sample of the first batch, one warm-up
    run, then [num_trials] timed runs.  Returns [single_sample] and
    [latencies]. *)
Definition latency_cell (num_trials : Z) (loader : list batch)
  : M (tensor * list Q) :=
  first <- lift (py_next (py_iter loader)) ;;
  let single_sample := firstn 1 (fst first) in
  _ <- session_run single_sample ;;
  latencies <- timing_loop (Z.to_nat num_trials) single_sample [] ;;
  ret (single_sample, latencies).

(** The batch cell: the whole first batch, one warm-up run, then
    [num_batches] timed runs.  Returns [batch_input] and [batch_times]. *)
Definition batch_cell (num_batches : Z) (loader : list batch)
  : M (tensor * list Q) :=
  first <- lift (py_next (py_iter loader)) ;;
  let batch_input := fst first in
  _ <- session_run batch_input ;;
  batch_times <- timing_loop (Z.to_nat num_batches) batch_input [] ;;
  ret (batch_input, batch_times).

Definition scale (v : option Q) (k : Q) : option Q :=
  option_map (fun x => x * k) v.

(** The value of a call that returns. *)
Definition returned (r : result Q) : option Q :=
  match r with
  | Ok p => Some p
  | Raise _ => None
  end.

(** The line a latency print shows when its percentile call returns. *)
Definition latency_line (what : string) (latencies : list Q) (q : Q)
  : list frag :=
  [Lit "Inference Latency (single sample, "; Lit what; Lit "): ";
   F2 (scale (returned (Np.percentile latencies q)) 1000); Lit " ms"].

(** [print(f"Inference Latency (single sample, ...):
    {np.percentile(latencies, q) * 1000:.2f} ms")]: the percentile is
    computed first, and nothing is printed when it raises. *)
Definition print_latency (what : string) (latencies : list Q) (q : Q)
  : M unit :=
  p <- lift (Np.percentile latencies q) ;;
  print [Lit "Inference Latency (single sample, "; Lit what; Lit "): ";
         F2 (Some (p * 1000)); Lit " ms"].

(** [num_trials / np.sum(latencies)]. *)
Definition single_sample_fps (num_trials : Z) (latencies : list Q)
  : option Q :=
  Np.true_divide (inject_Z num_trials) (Np.sum latencies).

Definition throughput_line (num_trials : Z) (latencies : list Q)
  : list frag :=
  [Lit "Inference Throughput (single sample): ";
   F2 (single_sample_fps num_trials latencies); Lit " FPS"].

Definition latency_stats_cell (num_trials : Z) (latencies : list Q)
  : M unit :=
  _ <- print_latency "median" latencies 50 ;;
  _ <- print_latency "95th percentile" latencies 95 ;;
  _ <- print_latency "99th percentile" latencies 99 ;;
  print (throughput_line num_trials latencies).

(** [batch_fps = (batch_input.shape[0] * num_batches) / np.sum(batch_times)]. *)
Definition batch_fps (batch_input : tensor) (num_batches : Z)
           (batch_times : list Q) : option Q :=
  Np.true_divide (inject_Z (Z.of_nat (length batch_input) * num_batches))
                 (Np.sum batch_times).

Definition batch_line (fps : option Q) : list frag :=
  [Lit "Batch Throughput: "; F2 fps; Lit " FPS"].

Definition batch_fps_cell (batch_input : tensor) (num_batches : Z)
           (batch_times : list Q) : M (option Q) :=
  let fps := batch_fps batch_input num_batches batch_times in
  _ <- print (batch_line fps) ;;
  ret fps.

(** *** Summary of results *)

(** The notebook variables the summary cell reads. *)
Record Vars : Type := mkVars {
  accuracy : Q;
  correct : Z;
  total : Z;
  model_size : Z;
  latencies : list Q;
  num_trials : Z;
  v_batch_fps : option Q
}.

(** The seven lines of a summary whose percentile calls return. *)
Definition summary_lines (v : Vars) : list (list frag) :=
  [accuracy_line (accuracy v) (correct v) (total v);
   size_line (model_size v);
   latency_line "median" (latencies v) 50;
   latency_line "95th percentile" (latencies v) 95;
   latency_line "99th percentile" (latencies v) 99;
   throughput_line (num_trials v) (latencies v);
   batch_line (v_batch_fps v)].

Fixpoint print_all (lines : list (list frag)) : M unit :=
  match lines with
  | [] => ret tt
  | l :: rest => _ <- print l ;; print_all rest
  end.

(** The summary cell: seven prints, in this order. *)
Definition summary_cell (v : Vars) : M unit :=
  _ <- print (accuracy_line (accuracy v) (correct v) (total v)) ;;
  _ <- print (size_line (model_size v)) ;;
  _ <- print_latency "median" (latencies v) 50 ;;
  _ <- print_latency "95th percentile" (latencies v) 95 ;;
  _ <- print_latency "99th percentile" (latencies v) 99 ;;
  _ <- print (throughput_line (num_trials v) (latencies v)) ;;
  print (batch_line (v_batch_fps v)).

(** *** The notebook, top to bottom *)

(** The measurement cells in the order the notebook runs them, with its
    constants: 100 latency trials, 50 batch trials. *)
Definition notebook (test_dataset : list (image * nat))
           (onnx_model_path : string) : M Vars :=
  let loader := test_loader test_dataset in
  acc <- accuracy_cell loader ;;
  let '(correct, total, accuracy) := acc in
  _ <- print (accuracy_line accuracy correct total) ;;
  model_size <- size_cell onnx_model_path ;;
  let num_trials := 100%Z in
  lat <- latency_cell num_trials loader ;;
  let latencies := snd lat in
  _ <- latency_stats_cell num_trials latencies ;;
  let num_batches := 50%Z in
  bat <- batch_cell num_batches loader ;;
  fps <- batch_fps_cell (fst bat) num_batches (snd bat) ;;
  let v := mkVars accuracy correct total model_size latencies num_trials
                  fps in
  _ <- summary_cell v ;;
  ret v.

(** ** Reading a trace *)

(** The events of [n] timed runs of [x] when the first of their clock
    readings is the [r]-th of the session: each run sits between two
    readings. *)
Fixpoint timed_runs (r n : nat) (x : tensor) : list event :=
  match n with
  | O => []
  | S n' => Tick r :: Run x :: Tick (S r) :: timed_runs (S (S r)) n' x
  end.

(** The differences of those pairs of readings, in trial order. *)
Fixpoint durations (r n : nat) : list Q :=
  match n with
  | O => []
  | S n' => (clock (S r) - clock r) :: durations (S (S r)) n'
  end.

(** The inputs of the session calls of a trace, oldest first. *)
Fixpoint runs_of (tr : list event) : list tensor :=
  match tr with
  | [] => []
  | Run x :: tr' => x :: runs_of tr'
  | Tick _ :: tr' => runs_of tr'
  end.


(** The session calls made after at least one clock reading. *)
Fixpoint timed_calls (tr : list event) : nat :=
  match tr with
  | [] => O
  | Run _ :: tr' => timed_calls tr'
  | Tick _ :: tr' => length (runs_of tr')
  end.

(** ** What a session does on a sample *)

(** The row scores the class [label] strictly above every other class. *)
Definition scores_highest (row : list Q) (label : nat) : Prop :=
  exists s, nth_error row label = Some s
            /\ forall j t, j <> label -> nth_error row j = Some t -> t < s.

(** The arg-max of the row is a class other than [label]. *)
Definition predicts_wrong (row : list Q) (label : nat) : Prop :=
  exists p, Np.argmax row = Ok p /\ p <> label.

(** The number of correct predictions the loop body counts on a batch. *)
Definition batch_hits (b : batch) : result Z :=
  match Np.argmax_axis1 (ort_session (fst b)) with
  | Raise e => Raise e
  | Ok predicted =>
      match Np.equal predicted (snd b) with
      | Raise e => Raise e
      | Ok hits => Ok (Np.count_true hits)
      end
  end.

Definition hits_of (b : batch) : Z :=
  match batch_hits b with Ok h => h | Raise _ => 0%Z end.

Definition sum_hits (loader : list batch) : Z :=
  fold_right (fun b acc => (hits_of b + acc)%Z) 0%Z loader.

Definition sum_sizes (loader : list batch) : Z :=
  fold_right (fun b acc => (Z.of_nat (length (snd b)) + acc)%Z) 0%Z loader.

(** ** A session that scores each image on its own *)

(** The class predicted for one image by a per-image scoring function. *)
Definition predicted_class (score : image -> list Q) (x : image) : nat :=
  match Np.argmax (score x) with
  | Ok p => p
  | Raise _ => 0%nat
  end.

Definition sample_correct (score : image -> list Q) (s : image * nat)
  : bool :=
  Nat.eqb (predicted_class score (fst s)) (snd s).

(** The number of samples of a dataset whose predicted class is their
    label. *)
Definition count_correct (score : image -> list Q)
           (ds : list (image * nat)) : Z :=
  Z.of_nat (length (filter (sample_correct score) ds)).

(** ** The loader *)

Lemma batch_sampler_concat (A : Type) (bs : nat) (l acc : list A) :
  concat (Torch.batch_sampler bs l acc) = acc ++ l.
Proof.
  revert acc; induction l as [|x l IH]; intros acc; simpl.
  - destruct acc; simpl; rewrite ?app_nil_r; reflexivity.
  - destruct (length (acc ++ [x]) =? bs)%nat; simpl.
    + rewrite IH; simpl. now rewrite <- app_assoc.
    + rewrite IH. now rewrite <- app_assoc.
Qed.

Lemma batch_sampler_head (A : Type) (bs : nat) (l acc : list A) :
  (length acc < bs)%nat -> acc ++ l <> [] ->
  exists rest, Torch.batch_sampler bs l acc = firstn bs (acc ++ l) :: rest.
Proof.
  revert acc; induction l as [|x l IH]; intros acc Hlt Hne; simpl.
  - rewrite app_nil_r in *. destruct acc as [|a acc]; [congruence|].
    exists []. rewrite firstn_all2 by lia. reflexivity.
  - destruct (length (acc ++ [x]) =? bs)%nat eqn:E.
    + apply Nat.eqb_eq in E. eexists. f_equal.
      replace (acc ++ x :: l) with ((acc ++ [x]) ++ l)
        by (now rewrite <- app_assoc).
      rewrite firstn_app, E, Nat.sub_diag. simpl.
      rewrite app_nil_r. symmetry; apply firstn_all2; lia.
    + apply Nat.eqb_neq in E.
      replace (acc ++ x :: l) with ((acc ++ [x]) ++ l)
        by (now rewrite <- app_assoc).
      apply IH.
      * rewrite length_app in *; simpl in *; lia.
      * destruct acc; simpl; congruence.
Qed.

(** A fresh pass over the loader of a non-empty dataset starts with the
    first 32 samples, collated. *)
Lemma test_loader_head (ds : list (image * nat)) :
  ds <> [] ->
  exists rest,
    test_loader ds
    = (map fst (firstn 32 ds), map snd (firstn 32 ds)) :: rest.
Proof.
  intros Hne. unfold test_loader, Torch.DataLoader.
  destruct (@batch_sampler_head _ 32 ds []) as [rest Hr]; simpl; [lia|assumption|].
  simpl in Hr. rewrite Hr. simpl. eexists; reflexivity.
Qed.

Lemma test_loader_images (ds : list (image * nat)) :
  concat (map fst (test_loader ds)) = map fst ds.
Proof.
  unfold test_loader, Torch.DataLoader.
  rewrite map_map. simpl.
  rewrite <- concat_map, batch_sampler_concat. reflexivity.
Qed.

Lemma test_loader_labels (ds : list (image * nat)) :
  concat (map snd (test_loader ds)) = map snd ds.
Proof.
  unfold test_loader, Torch.DataLoader.
  rewrite map_map. simpl.
  rewrite <- concat_map, batch_sampler_concat. reflexivity.
Qed.

Lemma test_loader_aligned (ds : list (image * nat)) (b : batch) :
  In b (test_loader ds) -> length (fst b) = length (snd b).
Proof.
  unfold test_loader, Torch.DataLoader. intros H.
  apply in_map_iff in H. destruct H as [samples [<- _]].
  simpl. now rewrite !length_map.
Qed.

(** ** The timing loop *)

Lemma timing_loop_spec (n : nat) (x : tensor) (times : list Q) (w : World) :
  timing_loop n x times w
  = (Ok (times ++ durations (reads w) n),
     mkWorld (reads w + 2 * n)
             (trace w ++ timed_runs (reads w) n x)
             (stdout w)).
Proof.
  revert times w; induction n as [|n IH]; intros times w.
  - simpl. unfold ret. rewrite !app_nil_r, Nat.add_0_r.
    destruct w; reflexivity.
  - simpl timing_loop. unfold bind at 1. unfold time_time at 1.
    unfold bind at 1. unfold session_run at 1.
    unfold bind at 1. unfold time_time at 1. cbn [reads trace stdout].
    rewrite IH. cbn [reads trace stdout]. simpl durations. simpl timed_runs.
    f_equal.
    + f_equal. now rewrite <- app_assoc.
    + f_equal; [lia|]. rewrite <- !app_assoc. reflexivity.
Qed.

Lemma durations_length (r n : nat) : length (durations r n) = n.
Proof. revert r; induction n; intros r; simpl; auto. Qed.



Lemma runs_of_timed_runs (r n : nat) (x : tensor) :
  runs_of (timed_runs r n x) = repeat x n.
Proof. revert r; induction n; intros r; simpl; f_equal; auto. Qed.

Lemma runs_of_app (tr1 tr2 : list event) :
  runs_of (tr1 ++ tr2) = runs_of tr1 ++ runs_of tr2.
Proof.
  induction tr1 as [|[k|x] tr1 IH]; simpl; auto. now rewrite IH.
Qed.

(** Both timing cells follow one pattern: take the first batch, derive the
    input, run it once, then time it [n] times. *)
Lemma latency_cell_spec (n : Z) (b : batch) (rest : list batch) (w : World) :
  latency_cell n (b :: rest) w
  = (Ok (firstn 1 (fst b), durations (reads w) (Z.to_nat n)),
     mkWorld (reads w + 2 * Z.to_nat n)
             (trace w ++ Run (firstn 1 (fst b))
                :: timed_runs (reads w) (Z.to_nat n) (firstn 1 (fst b)))
             (stdout w)).
Proof.
  unfold latency_cell, bind, lift, py_next, py_iter, session_run, ret.
  rewrite timing_loop_spec. cbn [reads trace stdout app].
  rewrite <- app_assoc. reflexivity.
Qed.

Lemma batch_cell_spec (n : Z) (b : batch) (rest : list batch) (w : World) :
  batch_cell n (b :: rest) w
  = (Ok (fst b, durations (reads w) (Z.to_nat n)),
     mkWorld (reads w + 2 * Z.to_nat n)
             (trace w ++ Run (fst b)
                :: timed_runs (reads w) (Z.to_nat n) (fst b))
             (stdout w)).
Proof.
  unfold batch_cell, bind, lift, py_next, py_iter, session_run, ret.
  rewrite timing_loop_spec. cbn [reads trace stdout app].
  rewrite <- app_assoc. reflexivity.
Qed.



Lemma first_sample (ds : list (image * nat)) :
  firstn 1 (map fst (firstn 32 ds)) = map fst (firstn 1 ds).
Proof. destruct ds; reflexivity. Qed.

(** ** Single-sample latency *)


(** C2 (as the notebook has it): with a trial count of 0 the latency cell
    and the batch cell both complete normally, without [InvalidArgument]:
    each makes its one warm-up call, no timed call and no clock reading,
    and returns an empty sequence of timings. *)
Theorem C2_zero_trials_no_timed_call
        (ds : list (image * nat)) (w : World) (Hds : ds <> []) :
  (exists single_sample w',
      latency_cell 0 (test_loader ds) w = (Ok (single_sample, []), w')
      /\ trace w' = trace w ++ [Run single_sample]
      /\ timed_calls [Run single_sample] = 0%nat
      /\ reads w' = reads w)
  /\ (exists batch_input w',
      batch_cell 0 (test_loader ds) w = (Ok (batch_input, []), w')
      /\ trace w' = trace w ++ [Run batch_input]
      /\ timed_calls [Run batch_input] = 0%nat
      /\ reads w' = reads w).
Proof.
  destruct (test_loader_head Hds) as [rest Hl]. rewrite Hl.
  rewrite latency_cell_spec, batch_cell_spec. cbn.
  split; do 2 eexists; (split; [reflexivity|]); cbn; repeat split; lia.
Qed.

(** C10: on a non-empty dataset, whatever the world was doing before (the
    accuracy pass included), the latency cell times the first sample of the
    dataset and the batch cell times the first batch, the first 32 samples
    in dataset order; the single sample is the first row of that batch, and
    every session call of either cell, warm-up and timed, is on that one
    input. *)
Theorem C10_timing_inputs_are_dataset_head
        (ds : list (image * nat)) (N Nb : Z) (w1 w2 : World)
        (Hds : ds <> []) :
  exists single_sample lat w1' batch_input batch_times w2',
    latency_cell N (test_loader ds) w1 = (Ok (single_sample, lat), w1')
    /\ batch_cell Nb (test_loader ds) w2 = (Ok (batch_input, batch_times), w2')
    /\ py_next (py_iter (test_loader ds))
       = Ok (batch_input, map snd (firstn 32 ds))
    /\ batch_input = map fst (firstn 32 ds)
    /\ single_sample = map fst (firstn 1 ds)
    /\ single_sample = firstn 1 batch_input
    /\ (exists ev1, trace w1' = trace w1 ++ ev1
                    /\ runs_of ev1 = repeat single_sample (S (Z.to_nat N)))
    /\ (exists ev2, trace w2' = trace w2 ++ ev2
                    /\ runs_of ev2 = repeat batch_input (S (Z.to_nat Nb))).
Proof.
  destruct (test_loader_head Hds) as [rest Hl]. rewrite Hl.
  rewrite latency_cell_spec, batch_cell_spec. cbn [fst].
  do 6 eexists. split; [reflexivity|]. split; [reflexivity|].
  cbn [py_next py_iter reads trace stdout].
  repeat split.
  - apply first_sample.
  - eexists; split; [reflexivity|]. simpl. now rewrite runs_of_timed_runs.
  - eexists; split; [reflexivity|]. simpl. now rewrite runs_of_timed_runs.
Qed.

(** ** Throughput *)

Lemma fold_left_Qplus (l : list Q) (a : Q) :
  fold_left Qplus l a == a + fold_right Qplus 0 l.
Proof.
  revert a; induction l as [|x l IH]; intros a; simpl.
  - ring.
  - rewrite IH. ring.
Qed.

Lemma np_sum_total (l : list Q) : Np.sum l == fold_right Qplus 0 l.
Proof. unfold Np.sum. rewrite fold_left_Qplus. ring. Qed.

Lemma true_divide_nonzero (a b : Q) :
  ~ b == 0 -> Np.true_divide a b = Some (a / b).
Proof.
  intros Hb. unfold Np.true_divide.
  destruct (Qeq_bool b 0) eqn:E; [|reflexivity].
  apply Qeq_bool_eq in E. contradiction.
Qed.

Lemma print_all_spec (lines : list (list frag)) (w : World) :
  print_all lines w
  = (Ok tt, mkWorld (reads w) (trace w) (stdout w ++ lines)).
Proof.
  revert w; induction lines as [|l lines IH]; intros w; simpl.
  - unfold ret. rewrite app_nil_r. destruct w; reflexivity.
  - unfold bind, print. rewrite IH. cbn [reads trace stdout].
    now rewrite <- app_assoc.
Qed.

Lemma bind_ok (A B : Type) (m : M A) (k : A -> M B) (a : A)
      (w w' : World) :
  m w = (Ok a, w') -> bind m k w = k a w'.
Proof. intros H. unfold bind. now rewrite H. Qed.

Lemma bind_raise (A B : Type) (m : M A) (k : A -> M B) (e : exn)
      (w w' : World) :
  m w = (Raise e, w') -> bind m k w = (Raise e, w').
Proof. intros H. unfold bind. now rewrite H. Qed.

Lemma percentile_in_range (a : list Q) (q : Q) :
  a <> [] -> 0 <= q -> q <= 100 ->
  Np.percentile a q
  = Ok (Np.linear (Np.sort a)
                  ((inject_Z (Z.of_nat (length (Np.sort a))) - 1)
                   * (q / 100))).
Proof.
  intros Ha H0 H1. unfold Np.percentile.
  apply Qle_bool_iff in H0. apply Qle_bool_iff in H1. rewrite H0, H1.
  destruct a; [congruence|reflexivity].
Qed.

Lemma percentile_empty (q : Q) :
  0 <= q -> q <= 100 -> Np.percentile [] q = Raise IndexError.
Proof.
  intros H0 H1. unfold Np.percentile.
  apply Qle_bool_iff in H0. apply Qle_bool_iff in H1. now rewrite H0, H1.
Qed.

Lemma print_latency_spec (what : string) (lat : list Q) (q p : Q)
      (w : World) :
  Np.percentile lat q = Ok p ->
  print_latency what lat q w
  = (Ok tt,
     mkWorld (reads w) (trace w) (stdout w ++ [latency_line what lat q])).
Proof.
  intros H. unfold print_latency, latency_line, bind, lift, print.
  rewrite H. reflexivity.
Qed.

Lemma print_latency_raise (what : string) (lat : list Q) (q : Q) (e : exn)
      (w : World) :
  Np.percentile lat q = Raise e ->
  print_latency what lat q w = (Raise e, w).
Proof.
  intros H. unfold print_latency, bind, lift. rewrite H. reflexivity.
Qed.

Lemma latency_stats_cell_spec (N : Z) (lat : list Q) (w : World) :
  lat <> [] ->
  latency_stats_cell N lat w
  = (Ok tt,
     mkWorld (reads w) (trace w)
             (stdout w ++ [latency_line "median" lat 50;
                           latency_line "95th percentile" lat 95;
                           latency_line "99th percentile" lat 99;
                           throughput_line N lat])).
Proof.
  intros Hne. unfold latency_stats_cell.
  erewrite bind_ok
    by (eapply print_latency_spec, percentile_in_range; [assumption|lra..]).
  erewrite bind_ok
    by (eapply print_latency_spec, percentile_in_range; [assumption|lra..]).
  erewrite bind_ok
    by (eapply print_latency_spec, percentile_in_range; [assumption|lra..]).
  unfold print. cbn [reads trace stdout]. now rewrite <- !app_assoc.
Qed.

Lemma summary_cell_spec (v : Vars) (w : World) :
  latencies v <> [] ->
  summary_cell v w
  = (Ok tt, mkWorld (reads w) (trace w) (stdout w ++ summary_lines v)).
Proof.
  intros Hne. unfold summary_cell.
  erewrite bind_ok by reflexivity.
  erewrite bind_ok by reflexivity.
  erewrite bind_ok
    by (eapply print_latency_spec, percentile_in_range; [assumption|lra..]).
  erewrite bind_ok
    by (eapply print_latency_spec, percentile_in_range; [assumption|lra..]).
  erewrite bind_ok
    by (eapply print_latency_spec, percentile_in_range; [assumption|lra..]).
  erewrite bind_ok by reflexivity.
  unfold print, summary_lines. cbn [reads trace stdout].
  rewrite <- !app_assoc. reflexivity.
Qed.

Lemma summary_cell_empty (v : Vars) (w : World) :
  latencies v = [] ->
  summary_cell v w
  = (Raise IndexError,
     mkWorld (reads w) (trace w)
             (stdout w ++ [accuracy_line (accuracy v) (correct v) (total v);
                           size_line (model_size v)])).
Proof.
  intros He. unfold summary_cell. rewrite He.
  erewrite bind_ok by reflexivity.
  erewrite bind_ok by reflexivity.
  erewrite bind_raise
    by (eapply print_latency_raise, percentile_empty; lra).
  unfold print. cbn [reads trace stdout]. now rewrite <- !app_assoc.
Qed.

(** C4: for a batch of size B, a trial count T >= 1 and recorded batch
    timings of positive sum S, the batch throughput the notebook computes
    and prints is (B * T) / S: all samples of all trials over the total
    elapsed time. *)
Theorem C4_batch_throughput
        (batch_input : tensor) (T : Z) (batch_times : list Q) (w : World)
        (HT : (1 <= T)%Z)
        (HS : 0 < fold_right Qplus 0 batch_times) :
  exists fps w',
    batch_fps_cell batch_input T batch_times w = (Ok (Some fps), w')
    /\ stdout w' = stdout w ++ [[Lit "Batch Throughput: "; F2 (Some fps);
                                 Lit " FPS"]]
    /\ fps == (inject_Z (Z.of_nat (length batch_input)) * inject_Z T)
              / fold_right Qplus 0 batch_times
    /\ fps * fold_right Qplus 0 batch_times
       == inject_Z (Z.of_nat (length batch_input)) * inject_Z T.
Proof.
  assert (Hs : ~ Np.sum batch_times == 0)
    by (rewrite np_sum_total; lra).
  unfold batch_fps_cell, batch_fps, bind, print, ret.
  rewrite (true_divide_nonzero _ Hs). cbn [reads trace stdout].
  do 2 eexists. split; [reflexivity|]. split; [reflexivity|].
  rewrite inject_Z_mult, np_sum_total. split; [reflexivity|].
  field. lra.
Qed.

(** C5: for a trial count N >= 1 and recorded latencies of positive sum,
    the single-sample throughput the notebook prints is N divided by the
    sum of the latency samples. *)
Theorem C5_single_sample_throughput
        (N : Z) (lat : list Q) (w : World)
        (HN : (1 <= N)%Z)
        (HS : 0 < fold_right Qplus 0 lat) :
  exists fps w',
    single_sample_fps N lat = Some fps
    /\ latency_stats_cell N lat w = (Ok tt, w')
    /\ stdout w'
       = stdout w ++ [latency_line "median" lat 50;
                      latency_line "95th percentile" lat 95;
                      latency_line "99th percentile" lat 99;
                      [Lit "Inference Throughput (single sample): ";
                       F2 (Some fps); Lit " FPS"]]
    /\ fps == inject_Z N / fold_right Qplus 0 lat
    /\ fps * fold_right Qplus 0 lat == inject_Z N.
Proof.
  assert (Hs : ~ Np.sum lat == 0) by (rewrite np_sum_total; lra).
  assert (Hne : lat <> []) by (intros ->; simpl in HS; lra).
  rewrite latency_stats_cell_spec by assumption.
  unfold throughput_line, single_sample_fps.
  rewrite (true_divide_nonzero _ Hs). cbn [reads trace stdout].
  do 2 eexists. split; [reflexivity|]. split; [reflexivity|].
  split; [reflexivity|].
  rewrite np_sum_total. split; [reflexivity|].
  field. lra.
Qed.

(** ** Model size *)

(** C7 (as the notebook has it): the size cell divides the byte count by
    1e6 (decimal megabytes, not binary mebibytes) and reports the quotient
    rounded to two decimals: for a model file of exactly 1,048,576 bytes
    the quotient is 1.048576 and the line reads
    "Model Size on Disk: 1.05 MB", where binary mebibytes would read
    1.00. *)
Theorem C7_model_size_decimal_megabytes
        (onnx_model_path : string) (w : World)
        (Hfile : getsize onnx_model_path = Some 1048576%Z) :
  exists mb line w',
    size_cell onnx_model_path w = (Ok 1048576%Z, w')
    /\ stdout w' = stdout w ++ [line]
    /\ line = [Lit "Model Size on Disk: "; F2 (Some mb); Lit " MB"]
    /\ mb == 1.048576
    /\ ~ mb == inject_Z 1048576 / inject_Z (2 ^ 20)
    /\ render_line line = Some "Model Size on Disk: 1.05 MB"%string
    /\ Py.format_2f (inject_Z 1048576 / inject_Z (2 ^ 20)) = "1.00"%string
    /\ (forall bytes : Z,
          exists v, model_size_mb bytes = Some v
                    /\ v == inject_Z bytes / 1000000
                    /\ v * 1000000 == inject_Z bytes).
Proof.
  unfold size_cell, os_path_getsize, bind, print, ret, lift.
  rewrite Hfile. cbn [reads trace stdout size_line].
  do 3 eexists. split; [reflexivity|]. split; [reflexivity|].
  split; [reflexivity|]. split; [reflexivity|]. split; [discriminate|].
  split; [vm_compute; reflexivity|]. split; [vm_compute; reflexivity|].
  intros bytes. eexists. split; [reflexivity|].
  split; [reflexivity|]. field.
Qed.

(** ** Summary *)

(** C8 (as the notebook has it): the summary cell is deterministic but not
    free of output: for the same variables its outcome and the lines it
    prints are the same in every world, and it leaves the clock readings
    and the session calls as they were; its one side effect is printing.
    With latency samples it prints its seven lines and completes; without
    any (the percentile calls raise) it prints the accuracy and size lines
    and fails with [IndexError]. *)
Theorem C8_summary_cell_deterministic (v : Vars) (w1 w2 : World) :
  exists outcome report,
    summary_cell v w1
    = (outcome, mkWorld (reads w1) (trace w1) (stdout w1 ++ report))
    /\ summary_cell v w2
       = (outcome, mkWorld (reads w2) (trace w2) (stdout w2 ++ report))
    /\ (latencies v <> [] ->
        outcome = Ok tt /\ report = summary_lines v
        /\ length report = 7%nat)
    /\ (latencies v = [] ->
        outcome = Raise IndexError
        /\ report = [accuracy_line (accuracy v) (correct v) (total v);
                     size_line (model_size v)]).
Proof.
  destruct (latencies v) as [|x lat] eqn:E.
  - rewrite !summary_cell_empty by assumption.
    do 2 eexists. split; [reflexivity|]. split; [reflexivity|].
    split; [congruence|auto].
  - assert (Hne : latencies v <> []) by congruence.
    rewrite !summary_cell_spec by assumption.
    do 2 eexists. split; [reflexivity|]. split; [reflexivity|].
    split; [auto|discriminate].
Qed.

(** ** Percentiles *)

Lemma insert_length (x : Q) (l : list Q) :
  length (Np.insert x l) = S (length l).
Proof.
  induction l as [|y l IH]; simpl; [reflexivity|].
  destruct (Qle_bool x y); simpl; auto.
Qed.

Lemma sort_length (l : list Q) : length (Np.sort l) = length l.
Proof.
  induction l as [|x l IH]; simpl; [reflexivity|].
  now rewrite insert_length, IH.
Qed.

Lemma insert_Forall (a x : Q) (l : list Q) :
  a <= x -> Forall (Qle a) l -> Forall (Qle a) (Np.insert x l).
Proof.
  intros Hax Hl. induction Hl as [|y l Hy Hl IH]; simpl.
  - constructor; auto.
  - destruct (Qle_bool x y); repeat constructor; auto.
Qed.

Lemma insert_sorted (x : Q) (l : list Q) :
  StronglySorted Qle l -> StronglySorted Qle (Np.insert x l).
Proof.
  intros Hs. induction Hs as [|y l Hs IH Hy]; simpl.
  - repeat constructor.
  - destruct (Qle_bool x y) eqn:E.
    + apply Qle_bool_iff in E. constructor.
      * constructor; assumption.
      * constructor; [assumption|].
        eapply Forall_impl; [|exact Hy]. intros z Hz. lra.
    + assert (y <= x).
      { destruct (Qlt_le_dec y x) as [Hlt|Hle]; [lra|].
        apply Qle_bool_iff in Hle. congruence. }
      constructor; [assumption|]. now apply insert_Forall.
Qed.

Lemma sort_sorted (l : list Q) : StronglySorted Qle (Np.sort l).
Proof.
  induction l as [|x l IH]; simpl; [constructor|].
  now apply insert_sorted.
Qed.

Lemma sorted_nth (l : list Q) (i j : nat) :
  StronglySorted Qle l -> (i <= j)%nat -> (j < length l)%nat ->
  nth i l 0 <= nth j l 0.
Proof.
  intros Hs. revert i j. induction Hs as [|x l Hs IH Hx]; intros i j Hij Hj.
  - simpl in Hj; lia.
  - destruct i as [|i], j as [|j]; simpl in *; try lia.
    + lra.
    + rewrite Forall_forall in Hx. apply Hx, nth_In. lia.
    + apply IH; lia.
Qed.

(** Where the virtual index falls: on the last element, or strictly
    inside the unit interval that starts at the previous index. *)
Lemma previous_index_spec (n : nat) (v : Q) :
  (1 <= n)%nat -> 0 <= v ->
  inject_Z (Z.of_nat (Np.previous_index n v)) <= v
  /\ ((Np.previous_index n v = n - 1)%nat
      \/ (v < inject_Z (Z.of_nat (Np.previous_index n v)) + 1
          /\ (S (Np.previous_index n v) <= n - 1)%nat)).
Proof.
  intros Hn Hv. unfold Np.previous_index.
  assert (Hn1 : inject_Z (Z.of_nat n) - 1 == inject_Z (Z.of_nat (n - 1))).
  { rewrite Nat2Z.inj_sub by lia. unfold Z.sub, Qminus.
    rewrite inject_Z_plus, inject_Z_opp. reflexivity. }
  destruct (Qle_bool (inject_Z (Z.of_nat n) - 1) v) eqn:E.
  - apply Qle_bool_iff in E. split; [lra|auto].
  - assert (Hlt : v < inject_Z (Z.of_nat n) - 1).
    { destruct (Qlt_le_dec v (inject_Z (Z.of_nat n) - 1)) as [H|H]; auto.
      apply Qle_bool_iff in H. congruence. }
    assert (E0 : Qle_bool 0 v = true) by now apply Qle_bool_iff.
    rewrite E0.
    assert (Hz : (0 <= Qfloor v)%Z).
    { change 0%Z with (Qfloor 0). now apply Qfloor_resp_le. }
    rewrite Z2Nat.id by assumption.
    pose proof (Qfloor_le v) as Hlo. pose proof (Qlt_floor v) as Hhi.
    rewrite inject_Z_plus in Hhi.
    split; [assumption|]. right. split; [exact Hhi|].
    assert (Hq : inject_Z (Qfloor v) < inject_Z (Z.of_nat (n - 1))) by lra.
    rewrite <- Zlt_Qlt in Hq. lia.
Qed.

Lemma lerp_between (a b t : Q) :
  a <= b -> 0 <= t -> t <= 1 ->
  a <= Np.lerp a b t /\ Np.lerp a b t <= b.
Proof. intros Hab H0 H1. unfold Np.lerp. split; nra. Qed.

Lemma linear_between (arr : list Q) (v : Q) :
  StronglySorted Qle arr -> (1 <= length arr)%nat -> 0 <= v ->
  nth (Np.previous_index (length arr) v) arr 0 <= Np.linear arr v
  /\ Np.linear arr v
     <= nth (Nat.min (S (Np.previous_index (length arr) v))
                     (length arr - 1)) arr 0.
Proof.
  intros Hs Hn Hv. unfold Np.linear.
  destruct (previous_index_spec Hn Hv) as [Hlo [Hlast|[Hhi Hnext]]].
  - rewrite Hlast. rewrite Nat.min_r by lia. unfold Np.lerp. split; nra.
  - apply lerp_between; [|lra|lra].
    apply sorted_nth; auto; lia.
Qed.

Lemma linear_mono (arr : list Q) (v1 v2 : Q) :
  StronglySorted Qle arr -> (1 <= length arr)%nat ->
  0 <= v1 -> v1 <= v2 ->
  Np.linear arr v1 <= Np.linear arr v2.
Proof.
  intros Hs Hn Hv1 Hle.
  assert (Hv2 : 0 <= v2) by lra.
  destruct (linear_between Hs Hn Hv1) as [_ Hup].
  destruct (linear_between Hs Hn Hv2) as [Hdown _].
  destruct (previous_index_spec Hn Hv1) as [Hlo1 Hc1].
  destruct (previous_index_spec Hn Hv2) as [Hlo2 Hc2].
  set (p1 := Np.previous_index (length arr) v1) in *.
  set (p2 := Np.previous_index (length arr) v2) in *.
  assert (Hp1 : (p1 <= length arr - 1)%nat) by (destruct Hc1; lia).
  assert (Hp2 : (p2 <= length arr - 1)%nat) by (destruct Hc2; lia).
  destruct (Nat.eq_dec p1 p2) as [Heq|Hne].
  - (* both on the same segment *)
    unfold Np.linear. fold p1 p2. rewrite <- Heq. unfold Np.lerp.
    assert (Hab : nth p1 arr 0
                  <= nth (Nat.min (S p1) (length arr - 1)) arr 0)
      by (apply sorted_nth; auto; lia).
    nra.
  - assert (Hlt : (p1 < p2)%nat).
    { destruct Hc2 as [Hlast|[Hhi2 _]]; [lia|].
      assert (Hq : inject_Z (Z.of_nat p1) < inject_Z (Z.of_nat p2 + 1)).
      { rewrite inject_Z_plus. change (inject_Z 1) with 1. lra. }
      rewrite <- Zlt_Qlt in Hq. lia. }
    assert (Hmid : nth (Nat.min (S p1) (length arr - 1)) arr 0
                   <= nth p2 arr 0)
      by (apply sorted_nth; auto; lia).
    lra.
Qed.

Lemma percentile_mono (a : list Q) (q1 q2 : Q) :
  a <> [] -> 0 <= q1 -> q1 <= q2 -> q2 <= 100 ->
  exists x1 x2,
    Np.percentile a q1 = Ok x1 /\ Np.percentile a q2 = Ok x2
    /\ x1 <= x2.
Proof.
  intros Ha Hq1 Hq Hq2.
  rewrite !percentile_in_range by (try assumption; lra).
  do 2 eexists. split; [reflexivity|]. split; [reflexivity|].
  set (arr := Np.sort a).
  assert (Hn : (1 <= length arr)%nat).
  { unfold arr; rewrite sort_length. destruct a; [congruence|simpl; lia]. }
  assert (Hn1 : 0 <= inject_Z (Z.of_nat (length arr)) - 1).
  { assert (H : inject_Z 1 <= inject_Z (Z.of_nat (length arr)))
      by (rewrite <- Zle_Qle; lia).
    change (inject_Z 1) with 1 in H. lra. }
  assert (Ha1 : 0 <= q1 / 100) by (apply Qle_shift_div_l; lra).
  assert (Ha2 : q1 / 100 <= q2 / 100).
  { unfold Qdiv. apply Qmult_le_compat_r; [assumption|]. discriminate. }
  set (c := inject_Z (Z.of_nat (length arr)) - 1) in *.
  apply linear_mono; [apply sort_sorted|assumption| |].
  - apply Qmult_le_0_compat; assumption.
  - rewrite !(Qmult_comm c). apply Qmult_le_compat_r; assumption.
Qed.

(** C3: for every non-empty sequence of latency samples the three
    percentiles the notebook prints exist and are ordered,
    p50 <= p95 <= p99, in seconds and in the milliseconds shown. *)
Theorem C3_percentiles_ordered (lat : list Q) (Hne : lat <> []) :
  exists p50 p95 p99,
    Np.percentile lat 50 = Ok p50
    /\ Np.percentile lat 95 = Ok p95
    /\ Np.percentile lat 99 = Ok p99
    /\ p50 <= p95 /\ p95 <= p99
    /\ latency_line "median" lat 50
       = [Lit "Inference Latency (single sample, "; Lit "median";
          Lit "): "; F2 (Some (p50 * 1000)); Lit " ms"]
    /\ latency_line "95th percentile" lat 95
       = [Lit "Inference Latency (single sample, "; Lit "95th percentile";
          Lit "): "; F2 (Some (p95 * 1000)); Lit " ms"]
    /\ latency_line "99th percentile" lat 99
       = [Lit "Inference Latency (single sample, "; Lit "99th percentile";
          Lit "): "; F2 (Some (p99 * 1000)); Lit " ms"]
    /\ p50 * 1000 <= p95 * 1000 /\ p95 * 1000 <= p99 * 1000.
Proof.
  destruct (@percentile_mono lat 50 95 Hne) as (p50 & p95 & H50 & H95 & Hle1);
    [lra|lra|lra|].
  destruct (@percentile_mono lat 95 99 Hne) as (p95' & p99 & H95' & H99 & Hle2);
    [lra|lra|lra|].
  rewrite H95 in H95'. injection H95' as <-.
  exists p50, p95, p99. unfold latency_line.
  rewrite H50, H95, H99. cbn [returned scale option_map].
  repeat split; try assumption; lra.
Qed.

(** ** Accuracy *)

Lemma argmax_from_le (row : list Q) (best : Q) (bi i : nat) :
  (forall x, In x row -> x <= best) ->
  Np.argmax_from best bi i row = bi.
Proof.
  revert i; induction row as [|x row IH]; intros i H; simpl; [reflexivity|].
  destruct (Qlt_le_dec best x) as [Hlt|_].
  - specialize (H x (or_introl eq_refl)). lra.
  - apply IH. intros y Hy. apply H. now right.
Qed.

Lemma argmax_from_strict (row : list Q) (k : nat) (s best : Q) (bi i : nat) :
  nth_error row k = Some s ->
  (forall j t, j <> k -> nth_error row j = Some t -> t < s) ->
  best < s ->
  Np.argmax_from best bi i row = (i + k)%nat.
Proof.
  revert k best bi i; induction row as [|x row IH];
    intros k best bi i Hk Hmax Hbest.
  - destruct k; discriminate.
  - destruct k as [|k]; simpl in *.
    + injection Hk as ->.
      destruct (Qlt_le_dec best s) as [_|Hle]; [|lra].
      rewrite argmax_from_le; [lia|].
      intros y Hy. apply In_nth_error in Hy. destruct Hy as [j Hj].
      apply Qlt_le_weak. apply (Hmax (S j)); [lia|exact Hj].
    + assert (Hx : x < s) by (apply (Hmax 0%nat); [lia|reflexivity]).
      assert (Hrest : forall j t, j <> k -> nth_error row j = Some t -> t < s).
      { intros j t Hj Hn. apply (Hmax (S j)); [lia|exact Hn]. }
      destruct (Qlt_le_dec best x);
        rewrite (IH k) by assumption; lia.
Qed.

Lemma argmax_highest (row : list Q) (label : nat) :
  scores_highest row label -> Np.argmax row = Ok label.
Proof.
  intros (s & Hs & Hmax). destruct row as [|x row].
  - destruct label; discriminate.
  - simpl. f_equal. destruct label as [|k]; simpl in Hs.
    + injection Hs as ->. apply argmax_from_le.
      intros y Hy. apply In_nth_error in Hy. destruct Hy as [j Hj].
      apply Qlt_le_weak. apply (Hmax (S j)); [lia|exact Hj].
    + apply (@argmax_from_strict row k s); auto.
      * intros j t Hj Hn. apply (Hmax (S j)); [lia|exact Hn].
      * apply (Hmax 0%nat); [lia|reflexivity].
Qed.

Lemma argmax_axis1_highest (outputs : list (list Q)) (labels : list nat) :
  Forall2 scores_highest outputs labels ->
  Np.argmax_axis1 outputs = Ok labels.
Proof.
  induction 1 as [|row label outputs labels Hrow _ IH]; simpl.
  - reflexivity.
  - now rewrite (argmax_highest Hrow), IH.
Qed.

Lemma argmax_axis1_wrong (outputs : list (list Q)) (labels : list nat) :
  Forall2 predicts_wrong outputs labels ->
  exists predicted,
    Np.argmax_axis1 outputs = Ok predicted
    /\ Forall2 (fun p l => p <> l) predicted labels.
Proof.
  induction 1 as [|row label outputs labels (p & Hp & Hne) _ IH]; simpl.
  - exists []. split; [reflexivity|constructor].
  - destruct IH as (predicted & -> & Hall). rewrite Hp.
    exists (p :: predicted). split; [reflexivity|now constructor].
Qed.

Lemma argmax_axis1_total (outputs : list (list Q)) :
  (forall row, In row outputs -> row <> []) ->
  exists predicted,
    Np.argmax_axis1 outputs = Ok predicted
    /\ length predicted = length outputs.
Proof.
  induction outputs as [|row outputs IH]; intros H; simpl.
  - exists []. auto.
  - destruct IH as (predicted & -> & Hlen);
      [intros r Hr; apply H; now right|].
    destruct row as [|x row]; [now specialize (H [] (or_introl eq_refl))|].
    simpl. eexists. split; [reflexivity|]. simpl. now rewrite Hlen.
Qed.

Lemma count_true_bounds (m : list bool) :
  (0 <= Np.count_true m <= Z.of_nat (length m))%Z.
Proof.
  unfold Np.count_true. pose proof (filter_length_le (fun b => b) m). lia.
Qed.

Lemma zip_eq_length (a b : list nat) :
  length a = length b -> length (Np.zip_eq a b) = length b.
Proof.
  revert b; induction a as [|x a IH]; intros [|y b] H; simpl in *;
    try discriminate; auto.
Qed.

Lemma equal_same_shape (a b : list nat) :
  length a = length b -> Np.equal a b = Ok (Np.zip_eq a b).
Proof.
  intros H. unfold Np.equal. now rewrite H, Nat.eqb_refl.
Qed.

Lemma count_true_refl (l : list nat) :
  Np.count_true (Np.zip_eq l l) = Z.of_nat (length l).
Proof.
  unfold Np.count_true. f_equal.
  induction l as [|x l IH]; simpl; [reflexivity|].
  rewrite Nat.eqb_refl. simpl. now rewrite IH.
Qed.

Lemma count_true_differ (a b : list nat) :
  Forall2 (fun p l => p <> l) a b ->
  length a = length b /\ Np.count_true (Np.zip_eq a b) = 0%Z.
Proof.
  unfold Np.count_true.
  induction 1 as [|x y a b Hxy _ [IHl IHc]]; simpl; [auto|].
  apply Nat.eqb_neq in Hxy. rewrite Hxy. split; [lia|exact IHc].
Qed.

(** One pass of the loop body: the session is called on the images of the
    batch, and the counters advance by the hits and by the batch size. *)
Lemma accuracy_body_spec (c t : Z) (b : batch) (w : World) :
  accuracy_body (c, t) b w
  = (match batch_hits b with
     | Ok h => Ok ((c + h)%Z, (t + Z.of_nat (length (snd b)))%Z)
     | Raise e => Raise e
     end,
     mkWorld (reads w) (trace w ++ [Run (fst b)]) (stdout w)).
Proof.
  destruct b as [images labels].
  unfold accuracy_body, batch_hits, bind, session_run, lift, ret.
  cbn [fst snd].
  destruct (Np.argmax_axis1 (ort_session images)) as [predicted|e];
    [|reflexivity].
  destruct (Np.equal predicted labels) as [hits|e]; reflexivity.
Qed.

Lemma accuracy_loop_spec (loader : list batch) (c t : Z) (w : World) :
  (forall b, In b loader -> exists h, batch_hits b = Ok h) ->
  accuracy_loop loader (c, t) w
  = (Ok ((c + sum_hits loader)%Z, (t + sum_sizes loader)%Z),
     mkWorld (reads w) (trace w ++ map (fun b => Run (fst b)) loader)
             (stdout w)).
Proof.
  revert c t w; induction loader as [|b loader IH]; intros c t w Hok.
  - simpl. unfold ret. rewrite app_nil_r, !Z.add_0_r.
    destruct w; reflexivity.
  - cbn [accuracy_loop]. unfold bind at 1. rewrite accuracy_body_spec.
    destruct (Hok b (or_introl eq_refl)) as [h Hh].
    simpl sum_hits. simpl sum_sizes. unfold hits_of. rewrite Hh.
    rewrite IH by (intros b' Hb'; apply Hok; now right).
    cbn [reads trace stdout map]. rewrite <- app_assoc. simpl.
    f_equal. f_equal. f_equal; lia.
Qed.

Lemma sum_sizes_concat (loader : list batch) :
  sum_sizes loader = Z.of_nat (length (concat (map snd loader))).
Proof.
  induction loader as [|b loader IH]; simpl; [reflexivity|].
  rewrite length_app, IH. lia.
Qed.

Lemma sum_sizes_test_loader (ds : list (image * nat)) :
  sum_sizes (test_loader ds) = Z.of_nat (length ds).
Proof.
  now rewrite sum_sizes_concat, test_loader_labels, length_map.
Qed.

Lemma sum_hits_ext (loader : list batch) (f : batch -> Z) :
  (forall b, In b loader -> hits_of b = f b) ->
  sum_hits loader = fold_right (fun b acc => (f b + acc)%Z) 0%Z loader.
Proof.
  induction loader as [|b loader IH]; intros H; simpl; [reflexivity|].
  rewrite (H b (or_introl eq_refl)), IH; [reflexivity|].
  intros b' Hb'. apply H. now right.
Qed.

Lemma accuracy_value_bounds (c t : Z) :
  (0 <= c <= t)%Z -> (0 < t)%Z ->
  0 <= inject_Z c / inject_Z t * 100 /\ inject_Z c / inject_Z t * 100 <= 100.
Proof.
  intros [Hc Hct] Ht.
  assert (Hc' : 0 <= inject_Z c) by (change 0 with (inject_Z 0); now rewrite <- Zle_Qle).
  assert (Hct' : inject_Z c <= inject_Z t) by now rewrite <- Zle_Qle.
  assert (Ht' : 0 < inject_Z t) by (change 0 with (inject_Z 0); now rewrite <- Zlt_Qlt).
  assert (H0 : 0 <= inject_Z c / inject_Z t) by (apply Qle_shift_div_l; lra).
  assert (H1 : inject_Z c / inject_Z t <= 1) by (apply Qle_shift_div_r; lra).
  split; lra.
Qed.

Lemma accuracy_cell_spec (loader : list batch) (w : World) :
  (forall b, In b loader -> exists h, batch_hits b = Ok h) ->
  sum_sizes loader <> 0%Z ->
  accuracy_cell loader w
  = (Ok (sum_hits loader, sum_sizes loader,
         inject_Z (sum_hits loader) / inject_Z (sum_sizes loader) * 100),
     mkWorld (reads w) (trace w ++ map (fun b => Run (fst b)) loader)
             (stdout w)).
Proof.
  intros Hok Hnz. unfold accuracy_cell, py_iter. unfold bind at 1.
  rewrite accuracy_loop_spec by assumption. rewrite !Z.add_0_l.
  apply Z.eqb_neq in Hnz. rewrite Hnz. reflexivity.
Qed.

Lemma dataset_size_pos (ds : list (image * nat)) :
  ds <> [] -> (0 < Z.of_nat (length ds))%Z.
Proof. destruct ds; [congruence|simpl; lia]. Qed.

(** A session that scores the labelled class highest on every sample:
    every prediction counts. *)
Lemma accuracy_all_correct (ds : list (image * nat)) (w : World) :
  ds <> [] ->
  (forall b, In b (test_loader ds) ->
             Forall2 scores_highest (ort_session (fst b)) (snd b)) ->
  exists acc,
    accuracy_cell (test_loader ds) w
    = (Ok (Z.of_nat (length ds), Z.of_nat (length ds), acc),
       mkWorld (reads w)
               (trace w ++ map (fun b => Run (fst b)) (test_loader ds))
               (stdout w))
    /\ acc == 100.
Proof.
  intros Hds Hgood.
  assert (Hhits : forall b, In b (test_loader ds) ->
                            batch_hits b = Ok (Z.of_nat (length (snd b)))).
  { intros b Hb. unfold batch_hits.
    rewrite (argmax_axis1_highest (Hgood b Hb)).
    rewrite equal_same_shape by reflexivity. now rewrite count_true_refl. }
  assert (Hsum : sum_hits (test_loader ds) = Z.of_nat (length ds)).
  { rewrite <- sum_sizes_test_loader. apply sum_hits_ext.
    intros b Hb. unfold hits_of. now rewrite (Hhits b Hb). }
  pose proof (dataset_size_pos Hds) as Hpos.
  rewrite accuracy_cell_spec.
  - rewrite Hsum, sum_sizes_test_loader. eexists. split; [reflexivity|].
    assert (Hq : 0 < inject_Z (Z.of_nat (length ds)))
      by (change 0 with (inject_Z 0); now rewrite <- Zlt_Qlt).
    field. lra.
  - intros b Hb. eexists. now apply Hhits.
  - rewrite sum_sizes_test_loader. lia.
Qed.

(** A session whose arg-max is never the labelled class: no prediction
    counts. *)
Lemma accuracy_all_wrong (ds : list (image * nat)) (w : World) :
  ds <> [] ->
  (forall b, In b (test_loader ds) ->
             Forall2 predicts_wrong (ort_session (fst b)) (snd b)) ->
  exists acc,
    accuracy_cell (test_loader ds) w
    = (Ok (0%Z, Z.of_nat (length ds), acc),
       mkWorld (reads w)
               (trace w ++ map (fun b => Run (fst b)) (test_loader ds))
               (stdout w))
    /\ acc == 0.
Proof.
  intros Hds Hbad.
  assert (Hhits : forall b, In b (test_loader ds) -> batch_hits b = Ok 0%Z).
  { intros b Hb. unfold batch_hits.
    destruct (argmax_axis1_wrong (Hbad b Hb)) as (predicted & -> & Hall).
    destruct (count_true_differ Hall) as [Hlen Hcount].
    now rewrite (equal_same_shape _ _ Hlen), Hcount. }
  assert (Hsum : sum_hits (test_loader ds) = 0%Z).
  { rewrite (@sum_hits_ext _ (fun _ => 0%Z)).
    - generalize (test_loader ds). intros l.
      induction l; simpl; auto.
    - intros b Hb. unfold hits_of. now rewrite (Hhits b Hb). }
  pose proof (dataset_size_pos Hds) as Hpos.
  rewrite accuracy_cell_spec.
  - rewrite Hsum, sum_sizes_test_loader. eexists. split; [reflexivity|].
    assert (Hq : 0 < inject_Z (Z.of_nat (length ds)))
      by (change 0 with (inject_Z 0); now rewrite <- Zlt_Qlt).
    change (inject_Z 0) with 0. field. lra.
  - intros b Hb. eexists. now apply Hhits.
  - rewrite sum_sizes_test_loader. lia.
Qed.

Lemma firstn_incl (A : Type) (k : nat) (l : list A) (x : A) :
  In x (firstn k l) -> In x l.
Proof.
  revert l; induction k as [|k IH]; intros [|y l] H; simpl in *;
    try contradiction.
  destruct H as [H|H]; [now left|right; now apply IH].
Qed.

Lemma sum_hits_bounds (loader : list batch) :
  (forall b, In b loader ->
             (0 <= hits_of b <= Z.of_nat (length (snd b)))%Z) ->
  (0 <= sum_hits loader <= sum_sizes loader)%Z.
Proof.
  induction loader as [|b loader IH]; intros H; simpl; [lia|].
  pose proof (H b (or_introl eq_refl)).
  assert (0 <= sum_hits loader <= sum_sizes loader)%Z
    by (apply IH; intros b' Hb'; apply H; now right).
  lia.
Qed.

(** C9: with a session that returns one non-empty row of scores per input
    row, on a non-empty dataset: each pass of the loop body adds to
    [correct] at least 0 and at most what it adds to [total]; after every
    number of processed batches 0 <= correct <= total; and the accuracy the
    cell computes lies in [0, 100]. *)
Theorem C9_accuracy_counters_invariant
        (ds : list (image * nat)) (w : World)
        (Hds : ds <> [])
        (Hshape : forall x, length (ort_session x) = length x)
        (Hclasses : forall x row, In row (ort_session x) -> row <> []) :
  (forall b c t w0, In b (test_loader ds) ->
      exists h w0',
        accuracy_body (c, t) b w0
        = (Ok ((c + h)%Z, (t + Z.of_nat (length (snd b)))%Z), w0')
        /\ (0 <= h <= Z.of_nat (length (snd b)))%Z)
  /\ (forall k, exists c t w',
        accuracy_loop (firstn k (test_loader ds)) (0%Z, 0%Z) w
        = (Ok (c, t), w')
        /\ (0 <= c <= t)%Z)
  /\ (exists c t acc w',
        accuracy_cell (test_loader ds) w = (Ok (c, t, acc), w')
        /\ (0 <= c <= t)%Z /\ 0 <= acc /\ acc <= 100).
Proof.
  assert (Hhits : forall b, In b (test_loader ds) ->
            exists h, batch_hits b = Ok h
                      /\ (0 <= h <= Z.of_nat (length (snd b)))%Z).
  { intros b Hb. unfold batch_hits.
    destruct (@argmax_axis1_total (ort_session (fst b)))
      as (predicted & -> & Hlen); [apply Hclasses|].
    rewrite Hshape, (test_loader_aligned _ _ Hb) in Hlen.
    rewrite (equal_same_shape _ _ Hlen). eexists. split; [reflexivity|].
    pose proof (count_true_bounds (Np.zip_eq predicted (snd b))) as Hc.
    rewrite (zip_eq_length _ _ Hlen) in Hc. exact Hc. }
  assert (Hok : forall l, (forall b, In b l -> In b (test_loader ds)) ->
            (forall b, In b l -> exists h, batch_hits b = Ok h)
            /\ (0 <= sum_hits l <= sum_sizes l)%Z).
  { intros l Hl. split.
    - intros b Hb. destruct (Hhits b (Hl b Hb)) as (h & Hh & _). eauto.
    - apply sum_hits_bounds. intros b Hb.
      destruct (Hhits b (Hl b Hb)) as (h & Hh & Hbound).
      unfold hits_of. now rewrite Hh. }
  split; [|split].
  - intros b c t w0 Hb. destruct (Hhits b Hb) as (h & Hh & Hbound).
    rewrite accuracy_body_spec, Hh. eauto.
  - intros k.
    destruct (Hok (firstn k (test_loader ds))) as [Hk Hbound];
      [intros b; apply firstn_incl|].
    rewrite accuracy_loop_spec by assumption. rewrite !Z.add_0_l. eauto.
  - destruct (Hok (test_loader ds)) as [Hall Hbound]; [auto|].
    pose proof (dataset_size_pos Hds) as Hpos.
    rewrite accuracy_cell_spec;
      [|assumption|rewrite sum_sizes_test_loader; lia].
    do 4 eexists. split; [reflexivity|]. split; [assumption|].
    apply accuracy_value_bounds; [assumption|].
    rewrite sum_sizes_test_loader. assumption.
Qed.

(** ** More on the loader: batch sizes *)

Lemma batch_sampler_sizes (A : Type) (bs : nat) (l acc : list A) :
  (length acc < bs)%nat ->
  map (@length A) (Torch.batch_sampler bs l acc)
  = repeat bs ((length acc + length l) / bs)
    ++ (if ((length acc + length l) mod bs =? 0)%nat then []
        else [((length acc + length l) mod bs)%nat]).
Proof.
  revert acc; induction l as [|x l IH]; intros acc Hlt.
  - simpl. rewrite Nat.add_0_r, Nat.div_small, Nat.mod_small by assumption.
    destruct acc; reflexivity.
  - simpl Torch.batch_sampler.
    assert (Hlen : length (acc ++ [x]) = S (length acc))
      by (rewrite length_app; simpl; lia).
    destruct (length (acc ++ [x]) =? bs)%nat eqn:E.
    + apply Nat.eqb_eq in E.
      cbn [map]. rewrite (IH []) by (simpl; lia). cbn [length].
      replace (length acc + S (length l))%nat with (1 * bs + length l)%nat
        by lia.
      rewrite Nat.div_add_l by lia.
      replace ((1 * bs + length l) mod bs)%nat with (length l mod bs)%nat
        by (rewrite Nat.add_comm, Nat.Div0.mod_add; reflexivity).
      rewrite Nat.add_0_l, E. reflexivity.
    + apply Nat.eqb_neq in E. rewrite IH by lia.
      cbn [length]. rewrite Hlen.
      replace (S (length acc) + length l)%nat
        with (length acc + S (length l))%nat by lia.
      reflexivity.
Qed.

(** X1: the loader cuts a dataset of n samples into n / 32 batches of
    exactly 32 samples, followed by one batch of n mod 32 samples when that
    is not zero; so it yields ceil(n / 32) batches, none empty and none
    larger than 32, and every batch but the last is full. *)
Theorem X1_test_loader_batch_sizes (ds : list (image * nat)) :
  let n := length ds in
  map (fun b : batch => length (fst b)) (test_loader ds)
  = repeat 32%nat (n / 32)
    ++ (if (n mod 32 =? 0)%nat then [] else [(n mod 32)%nat])
  /\ length (test_loader ds) = ((n + 31) / 32)%nat
  /\ Forall (fun b : batch => (1 <= length (fst b) <= 32)%nat
                              /\ length (snd b) = length (fst b))
            (test_loader ds).
Proof.
  intros n.
  assert (Hsizes : map (fun b : batch => length (fst b)) (test_loader ds)
                   = repeat 32%nat (n / 32)
                     ++ (if (n mod 32 =? 0)%nat then []
                         else [(n mod 32)%nat])).
  { unfold test_loader, Torch.DataLoader. rewrite map_map.
    assert (Hext : forall samples : list (image * nat),
               length (fst (Torch.default_collate samples)) = length samples)
      by (intros; simpl; apply length_map).
    rewrite (map_ext _ _ Hext).
    now rewrite (@batch_sampler_sizes _ 32 ds []) by (simpl; lia). }
  split; [exact Hsizes|]. split.
  - rewrite <- (length_map (fun b : batch => length (fst b))), Hsizes.
    rewrite length_app, repeat_length.
    pose proof (Nat.div_mod_eq n 32) as Hn.
    assert (Hm : (n mod 32 < 32)%nat) by (apply Nat.mod_upper_bound; lia).
    remember (n / 32)%nat as q. remember (n mod 32)%nat as m.
    destruct (m =? 0)%nat eqn:E.
    + apply Nat.eqb_eq in E. cbn [length].
      apply (Nat.div_unique _ 32 _ 31); lia.
    + apply Nat.eqb_neq in E. cbn [length].
      apply (Nat.div_unique _ 32 _ (m - 1)); lia.
  - rewrite Forall_forall. intros b Hb. split.
    + assert (Hin : In (length (fst b))
                       (map (fun b : batch => length (fst b))
                            (test_loader ds)))
        by (apply in_map_iff; eauto).
      rewrite Hsizes in Hin. apply in_app_or in Hin.
      destruct Hin as [Hin|Hin].
      * apply repeat_spec in Hin. lia.
      * pose proof (Nat.mod_upper_bound n 32).
        destruct (n mod 32 =? 0)%nat eqn:E; [contradiction|].
        apply Nat.eqb_neq in E. destruct Hin as [<-|[]]. lia.
    + symmetry. now apply (test_loader_aligned ds).
Qed.

(** ** More on numpy: arg-max *)

Lemma argmax_from_spec (row pre : list Q) (best : Q) (bi : nat) :
  (bi < length pre)%nat ->
  nth bi pre 0 = best ->
  (forall j, (j < length pre)%nat -> nth j pre 0 <= best) ->
  (forall j, (j < bi)%nat -> nth j pre 0 < best) ->
  let r := Np.argmax_from best bi (length pre) row in
  (r < length (pre ++ row))%nat
  /\ (forall j, (j < length (pre ++ row))%nat ->
                nth j (pre ++ row) 0 <= nth r (pre ++ row) 0)
  /\ (forall j, (j < r)%nat ->
                nth j (pre ++ row) 0 < nth r (pre ++ row) 0).
Proof.
  revert pre best bi; induction row as [|x row IH];
    intros pre best bi Hbi Hbest Hmax Hfirst; cbn zeta.
  - simpl. rewrite app_nil_r. rewrite Hbest. auto.
  - simpl Np.argmax_from.
    replace (pre ++ x :: row) with ((pre ++ [x]) ++ row)
      by (now rewrite <- app_assoc).
    replace (S (length pre)) with (length (pre ++ [x]))
      by (rewrite length_app; simpl; lia).
    assert (Hlast : nth (length pre) (pre ++ [x]) 0 = x)
      by (rewrite app_nth2, Nat.sub_diag by lia; reflexivity).
    destruct (Qlt_le_dec best x) as [Hlt|Hle]; apply IH.
    + rewrite length_app; simpl; lia.
    + exact Hlast.
    + intros j Hj. rewrite length_app in Hj; simpl in Hj.
      destruct (Nat.eq_dec j (length pre)) as [->|Hne].
      * rewrite Hlast. lra.
      * rewrite app_nth1 by lia. pose proof (Hmax j ltac:(lia)). lra.
    + intros j Hj. rewrite app_nth1 by lia.
      pose proof (Hmax j ltac:(lia)). lra.
    + rewrite length_app; simpl; lia.
    + rewrite app_nth1 by lia. exact Hbest.
    + intros j Hj. rewrite length_app in Hj; simpl in Hj.
      destruct (Nat.eq_dec j (length pre)) as [->|Hne].
      * rewrite Hlast. exact Hle.
      * rewrite app_nth1 by lia. apply Hmax. lia.
    + intros j Hj. rewrite app_nth1 by lia. now apply Hfirst.
Qed.

(** X9: on a non-empty row of scores [np.argmax] returns an index of the
    row whose score is at least every score of the row, and every earlier
    index holds a strictly smaller score: the predicted class is the first
    class with the highest score.  On an empty row it raises. *)
Theorem X9_argmax_first_maximum (row : list Q) (Hne : row <> []) :
  Np.argmax [] = Raise ValueError
  /\ exists i,
      Np.argmax row = Ok i
      /\ (i < length row)%nat
      /\ (forall j, (j < length row)%nat -> nth j row 0 <= nth i row 0)
      /\ (forall j, (j < i)%nat -> nth j row 0 < nth i row 0).
Proof.
  split; [reflexivity|].
  destruct row as [|x row]; [congruence|].
  simpl Np.argmax. eexists. split; [reflexivity|].
  apply (@argmax_from_spec row [x] x 0%nat).
  - simpl; lia.
  - reflexivity.
  - intros j Hj. simpl in Hj. destruct j; [simpl; lra|lia].
  - intros j Hj. lia.
Qed.

(** ** More on numpy: percentiles *)

Lemma insert_In (x y : Q) (l : list Q) :
  In y (Np.insert x l) <-> y = x \/ In y l.
Proof.
  induction l as [|z l IH]; simpl.
  - intuition.
  - destruct (Qle_bool x z); simpl; [intuition|].
    rewrite IH. intuition.
Qed.

Lemma sort_In (y : Q) (l : list Q) : In y (Np.sort l) <-> In y l.
Proof.
  induction l as [|x l IH]; simpl; [reflexivity|].
  rewrite insert_In, IH. intuition.
Qed.

Lemma linear_at_start (arr : list Q) (v : Q) :
  (1 <= length arr)%nat -> v == 0 -> Np.linear arr v == nth 0 arr 0.
Proof.
  intros Hn Hv.
  assert (H0 : 0 <= v) by lra.
  destruct (previous_index_spec Hn H0) as [Hlo _].
  assert (Hp : Np.previous_index (length arr) v = 0%nat).
  { assert (Hq : inject_Z (Z.of_nat (Np.previous_index (length arr) v))
                 <= inject_Z 0) by (change (inject_Z 0) with 0; lra).
    rewrite <- Zle_Qle in Hq. lia. }
  unfold Np.linear. cbv zeta. rewrite Hp. unfold Np.lerp.
  change (inject_Z (Z.of_nat 0)) with 0. rewrite Hv. ring.
Qed.

Lemma linear_at_end (arr : list Q) (v : Q) :
  inject_Z (Z.of_nat (length arr)) - 1 <= v ->
  Np.linear arr v == nth (length arr - 1) arr 0.
Proof.
  intros Hv. unfold Np.linear, Np.previous_index. cbv zeta.
  apply Qle_bool_iff in Hv. rewrite Hv.
  rewrite Nat.min_r by lia. unfold Np.lerp. ring.
Qed.

(** Every percentile lies between the smallest and the largest element of
    the sorted array. *)
Lemma percentile_range (a : list Q) (q : Q) :
  a <> [] -> 0 <= q -> q <= 100 ->
  exists p,
    Np.percentile a q = Ok p
    /\ nth 0 (Np.sort a) 0 <= p
    /\ p <= nth (length a - 1) (Np.sort a) 0.
Proof.
  intros Ha Hq Hq'. rewrite percentile_in_range by assumption.
  eexists. split; [reflexivity|].
  set (arr := Np.sort a).
  assert (Hlen : length arr = length a) by apply sort_length.
  assert (Hn : (1 <= length arr)%nat)
    by (rewrite Hlen; destruct a; [congruence|simpl; lia]).
  assert (Hs : StronglySorted Qle arr) by apply sort_sorted.
  assert (Hn1 : 0 <= inject_Z (Z.of_nat (length arr)) - 1).
  { assert (H : inject_Z 1 <= inject_Z (Z.of_nat (length arr)))
      by (rewrite <- Zle_Qle; lia).
    change (inject_Z 1) with 1 in H. lra. }
  assert (Hv : 0 <= (inject_Z (Z.of_nat (length arr)) - 1) * (q / 100)).
  { apply Qmult_le_0_compat; [assumption|].
    apply Qle_shift_div_l; lra. }
  destruct (linear_between Hs Hn Hv) as [Hlo Hhi].
  destruct (previous_index_spec Hn Hv) as [_ Hp].
  rewrite <- Hlen. split.
  - eapply Qle_trans; [|exact Hlo]. apply sorted_nth; auto; [lia|].
    destruct Hp; lia.
  - eapply Qle_trans; [exact Hhi|]. apply sorted_nth; auto; lia.
Qed.

Lemma sort_extremes (a : list Q) (y : Q) :
  In y a ->
  nth 0 (Np.sort a) 0 <= y /\ y <= nth (length a - 1) (Np.sort a) 0.
Proof.
  intros Hy. apply sort_In in Hy.
  destruct (In_nth _ _ 0 Hy) as (i & Hi & <-).
  rewrite <- (sort_length a).
  split; apply sorted_nth; try apply sort_sorted; lia.
Qed.

(** X8: on a non-empty sequence every percentile between 0 and 100 lies
    between the smallest and the largest sample; the percentile at 0 is the
    smallest sample and the percentile at 100 the largest.  So no latency
    statistic the notebook prints can leave the range of the measured
    samples. *)
Theorem X8_percentile_within_samples (a : list Q) (Hne : a <> []) :
  exists lo hi,
    In lo a /\ In hi a
    /\ (forall y, In y a -> lo <= y /\ y <= hi)
    /\ (forall q, 0 <= q -> q <= 100 ->
                  exists p, Np.percentile a q = Ok p /\ lo <= p /\ p <= hi)
    /\ (exists p, Np.percentile a 0 = Ok p /\ p == lo)
    /\ (exists p, Np.percentile a 100 = Ok p /\ p == hi).
Proof.
  assert (Hlen : (1 <= length (Np.sort a))%nat).
  { rewrite sort_length. destruct a; [congruence|simpl; lia]. }
  exists (nth 0 (Np.sort a) 0), (nth (length a - 1) (Np.sort a) 0).
  split; [apply sort_In, nth_In; lia|].
  split; [apply sort_In, nth_In; rewrite sort_length in *; lia|].
  split; [intros y Hy; now apply sort_extremes|].
  split; [intros q Hq Hq'; now apply percentile_range|].
  rewrite !percentile_in_range by (try assumption; lra). split.
  - eexists. split; [reflexivity|]. apply linear_at_start; [assumption|].
    unfold Qdiv. ring.
  - eexists. split; [reflexivity|].
    rewrite linear_at_end; [now rewrite sort_length|].
    apply Qle_lteq. right. field.
Qed.

Lemma Forall2_Qeq_refl (l : list Q) : Forall2 Qeq l l.
Proof. induction l; constructor; auto. reflexivity. Qed.

Lemma Forall2_Qeq_trans (l1 l2 l3 : list Q) :
  Forall2 Qeq l1 l2 -> Forall2 Qeq l2 l3 -> Forall2 Qeq l1 l3.
Proof.
  intros H12; revert l3; induction H12 as [|x y l1 l2 Hxy _ IH];
    intros l3 H23; inversion H23; subst; constructor.
  - etransitivity; eassumption.
  - now apply IH.
Qed.

Lemma insert_Forall2 (x : Q) (l l' : list Q) :
  Forall2 Qeq l l' -> Forall2 Qeq (Np.insert x l) (Np.insert x l').
Proof.
  induction 1 as [|y y' l l' Hy Hl IH]; simpl.
  - constructor; [reflexivity|constructor].
  - rewrite <- (Qleb_comp x x (Qeq_refl x) y y' Hy).
    destruct (Qle_bool x y).
    + constructor; [reflexivity|]. now constructor.
    + now constructor.
Qed.

Lemma Qle_bool_false (x y : Q) : Qle_bool x y = false -> y < x.
Proof.
  intros H. destruct (Qlt_le_dec y x) as [Hlt|Hle]; [assumption|].
  apply Qle_bool_iff in Hle. congruence.
Qed.

Lemma insert_swap (x y : Q) (l : list Q) :
  Forall2 Qeq (Np.insert x (Np.insert y l)) (Np.insert y (Np.insert x l)).
Proof.
  induction l as [|z l IH]; simpl.
  - destruct (Qle_bool x y) eqn:Exy, (Qle_bool y x) eqn:Eyx;
      try apply Forall2_Qeq_refl.
    + apply Qle_bool_iff in Exy, Eyx.
      assert (x == y) by lra.
      repeat constructor; [assumption|now symmetry].
    + apply Qle_bool_false in Exy, Eyx. lra.
  - destruct (Qle_bool y z) eqn:Eyz, (Qle_bool x z) eqn:Exz; simpl;
      rewrite ?Eyz, ?Exz;
      destruct (Qle_bool x y) eqn:Exy, (Qle_bool y x) eqn:Eyx; simpl;
      rewrite ?Eyz, ?Exz;
      try apply Forall2_Qeq_refl;
      try (constructor; [reflexivity|exact IH]);
      try (apply Qle_bool_iff in Exy; apply Qle_bool_iff in Eyx;
           assert (x == y) by lra;
           constructor; [assumption|];
           constructor; [now symmetry|apply Forall2_Qeq_refl]);
      try (apply Qle_bool_false in Exy; apply Qle_bool_false in Eyx; lra);
      try (apply Qle_bool_iff in Eyz; apply Qle_bool_false in Exz;
           apply Qle_bool_iff in Exy; lra);
      try (apply Qle_bool_false in Eyz; apply Qle_bool_iff in Exz;
           apply Qle_bool_iff in Eyx; lra).
Qed.

Lemma sort_Permutation (a b : list Q) :
  Permutation a b -> Forall2 Qeq (Np.sort a) (Np.sort b).
Proof.
  induction 1 as [|x a b _ IH|x y a|a b c _ IHab _ IHbc]; simpl.
  - constructor.
  - now apply insert_Forall2.
  - apply insert_swap.
  - eapply Forall2_Qeq_trans; eassumption.
Qed.

Lemma nth_Forall2 (l l' : list Q) (i : nat) :
  Forall2 Qeq l l' -> nth i l 0 == nth i l' 0.
Proof.
  intros H; revert i; induction H as [|x y l l' Hxy _ IH]; intros [|i];
    simpl; auto; reflexivity.
Qed.

Lemma linear_Forall2 (l l' : list Q) (v : Q) :
  Forall2 Qeq l l' -> Np.linear l v == Np.linear l' v.
Proof.
  intros H. unfold Np.linear. cbv zeta.
  rewrite <- (Forall2_length H). unfold Np.lerp.
  rewrite (nth_Forall2 (Np.previous_index (length l) v) H).
  rewrite (nth_Forall2 (Nat.min (S (Np.previous_index (length l) v))
                                (length l - 1)) H).
  reflexivity.
Qed.

(** X10: the percentiles do not depend on the order of the samples: two
    sequences that are permutations of each other have equal percentiles
    at every q between 0 and 100.  The trial order the latency loop records
    is irrelevant to p50, p95 and p99. *)
Theorem X10_percentile_order_independent
        (a b : list Q) (q : Q)
        (Hperm : Permutation a b) (Hne : a <> [])
        (Hq0 : 0 <= q) (Hq100 : q <= 100) :
  exists x y,
    Np.percentile a q = Ok x /\ Np.percentile b q = Ok y /\ x == y.
Proof.
  pose proof (sort_Permutation Hperm) as Hs.
  pose proof (Forall2_length Hs) as Hlen.
  assert (Hb : b <> []).
  { intros ->. apply Permutation_sym, Permutation_nil in Hperm.
    congruence. }
  rewrite !percentile_in_range by assumption.
  do 2 eexists. split; [reflexivity|]. split; [reflexivity|].
  rewrite <- Hlen. now apply linear_Forall2.
Qed.

(** ** More on the accuracy pass *)

Lemma argmax_axis1_rowwise (score : image -> list Q) (imgs : list image) :
  (forall x, score x <> []) ->
  Np.argmax_axis1 (map score imgs) = Ok (map (predicted_class score) imgs).
Proof.
  intros Hcls. induction imgs as [|x imgs IH]; simpl; [reflexivity|].
  rewrite IH.
  assert (Hx : Np.argmax (score x) = Ok (predicted_class score x)).
  { unfold predicted_class. specialize (Hcls x).
    destruct (score x) as [|s row]; [congruence|reflexivity]. }
  now rewrite Hx.
Qed.

Lemma count_true_rowwise (score : image -> list Q)
      (samples : list (image * nat)) :
  Np.count_true (Np.zip_eq (map (predicted_class score) (map fst samples))
                           (map snd samples))
  = count_correct score samples.
Proof.
  unfold Np.count_true, count_correct. f_equal.
  induction samples as [|s samples IH]; simpl; [reflexivity|].
  unfold sample_correct at 1.
  destruct (predicted_class score (fst s) =? snd s)%nat; simpl; now rewrite IH.
Qed.

Lemma batch_hits_rowwise (score : image -> list Q)
      (samples : list (image * nat)) :
  (forall x, ort_session x = map score x) ->
  (forall x, score x <> []) ->
  batch_hits (Torch.default_collate samples)
  = Ok (count_correct score samples).
Proof.
  intros Hrow Hcls. unfold batch_hits, Torch.default_collate. cbn [fst snd].
  rewrite Hrow, argmax_axis1_rowwise by assumption.
  rewrite equal_same_shape by (now rewrite !length_map).
  now rewrite count_true_rowwise.
Qed.

Lemma count_correct_app (score : image -> list Q)
      (l1 l2 : list (image * nat)) :
  count_correct score (l1 ++ l2)
  = (count_correct score l1 + count_correct score l2)%Z.
Proof.
  unfold count_correct. rewrite filter_app, length_app. lia.
Qed.

Lemma sum_hits_rowwise (score : image -> list Q)
      (chunks : list (list (image * nat))) :
  (forall x, ort_session x = map score x) ->
  (forall x, score x <> []) ->
  sum_hits (map (@Torch.default_collate image nat) chunks)
  = count_correct score (concat chunks).
Proof.
  intros Hrow Hcls. induction chunks as [|c chunks IH]; simpl.
  - reflexivity.
  - unfold hits_of. rewrite (@batch_hits_rowwise score c) by assumption.
    now rewrite IH, count_correct_app.
Qed.

(** X2: with a session that scores each image on its own and gives every
    image at least one class score, on a non-empty dataset the accuracy
    cell returns correct = the number of samples whose first-highest class
    is their label, total = the size of the dataset, and accuracy =
    correct / total * 100.  The cut into batches of 32 does not change
    the count. *)
Theorem X2_accuracy_counts_correct_samples
        (score : image -> list Q) (ds : list (image * nat)) (w : World)
        (Hrow : forall x, ort_session x = map score x)
        (Hcls : forall x, score x <> [])
        (Hds : ds <> []) :
  exists acc w',
    accuracy_cell (test_loader ds) w
    = (Ok (count_correct score ds, Z.of_nat (length ds), acc), w')
    /\ acc == inject_Z (count_correct score ds)
               / inject_Z (Z.of_nat (length ds)) * 100
    /\ (0 <= count_correct score ds <= Z.of_nat (length ds))%Z.
Proof.
  assert (Hsum : sum_hits (test_loader ds) = count_correct score ds).
  { unfold test_loader, Torch.DataLoader.
    rewrite (@sum_hits_rowwise score) by assumption.
    rewrite batch_sampler_concat.
    reflexivity. }
  pose proof (dataset_size_pos Hds) as Hpos.
  rewrite accuracy_cell_spec.
  - rewrite Hsum, sum_sizes_test_loader. do 2 eexists.
    split; [reflexivity|]. split; [reflexivity|].
    unfold count_correct.
    pose proof (filter_length_le (sample_correct score) ds). lia.
  - intros b Hb. unfold test_loader, Torch.DataLoader in Hb.
    apply in_map_iff in Hb. destruct Hb as (samples & <- & _).
    eexists. now apply batch_hits_rowwise.
  - rewrite sum_sizes_test_loader. lia.
Qed.

Lemma accuracy_loop_fail (l1 l2 : list batch) (b : batch) (e : exn)
      (c t : Z) (w : World) :
  (forall b', In b' l1 -> exists h, batch_hits b' = Ok h) ->
  batch_hits b = Raise e ->
  accuracy_loop (l1 ++ b :: l2) (c, t) w
  = (Raise e,
     mkWorld (reads w)
             (trace w ++ map (fun b => Run (fst b)) (l1 ++ [b]))
             (stdout w)).
Proof.
  revert c t w; induction l1 as [|b1 l1 IH]; intros c t w Hok Hb.
  - cbn [app accuracy_loop map]. unfold bind at 1.
    rewrite accuracy_body_spec, Hb. reflexivity.
  - cbn [app accuracy_loop]. unfold bind at 1.
    rewrite accuracy_body_spec.
    destruct (Hok b1 (or_introl eq_refl)) as [h Hh]. rewrite Hh.
    rewrite IH by (try assumption; intros b' Hb'; apply Hok; now right).
    cbn [reads trace stdout map app]. rewrite <- app_assoc. reflexivity.
Qed.

(** X3: the accuracy pass stops at the first batch whose scores cannot be
    compared with the labels: the exception is that of the batch, the
    session has been called on the batches up to and including it and on
    none after it, and no accuracy is produced. *)
Theorem X3_accuracy_pass_stops_at_first_failure
        (l1 l2 : list batch) (b : batch) (e : exn) (w : World)
        (Hok : forall b', In b' l1 -> exists h, batch_hits b' = Ok h)
        (Hb : batch_hits b = Raise e) :
  exists w',
    accuracy_cell (l1 ++ b :: l2) w = (Raise e, w')
    /\ runs_of (trace w') = runs_of (trace w) ++ map fst (l1 ++ [b])
    /\ reads w' = reads w
    /\ stdout w' = stdout w.
Proof.
  unfold accuracy_cell, py_iter. unfold bind at 1.
  rewrite (@accuracy_loop_fail l1 l2 b e) by assumption.
  eexists. split; [reflexivity|]. cbn [reads trace stdout].
  repeat split. rewrite runs_of_app. f_equal.
  generalize (l1 ++ [b]). intros l.
  induction l as [|x l IH]; simpl; [reflexivity|now rewrite IH].
Qed.

(** ** Empty datasets *)

Lemma test_loader_nil_iff (ds : list (image * nat)) :
  test_loader ds = [] <-> ds = [].
Proof.
  split.
  - intros H. destruct ds as [|s ds]; [reflexivity|].
    destruct (@test_loader_head (s :: ds)) as [rest Hr]; [discriminate|].
    rewrite Hr in H. discriminate.
  - intros ->. reflexivity.
Qed.

(** X4: a timing cell raises [StopIteration] exactly when the dataset is
    empty, and then before any session call or clock reading; on an empty
    dataset the accuracy cell raises [ZeroDivisionError] without having
    called the session. *)
Theorem X4_empty_dataset (ds : list (image * nat)) (N Nb : Z) (w : World) :
  (fst (latency_cell N (test_loader ds) w) = Raise StopIteration
   <-> ds = [])
  /\ (fst (batch_cell Nb (test_loader ds) w) = Raise StopIteration
      <-> ds = [])
  /\ latency_cell N (test_loader []) w = (Raise StopIteration, w)
  /\ batch_cell Nb (test_loader []) w = (Raise StopIteration, w)
  /\ accuracy_cell (test_loader []) w = (Raise ZeroDivisionError, w).
Proof.
  assert (Hcase : ds = [] \/ exists b rest, test_loader ds = b :: rest).
  { destruct ds as [|s ds]; [now left|right].
    destruct (@test_loader_head (s :: ds)) as [rest Hr]; [discriminate|].
    eauto. }
  repeat split; try reflexivity.
  - intros H. destruct Hcase as [|(b & rest & Hl)]; [assumption|].
    rewrite Hl, latency_cell_spec in H. discriminate.
  - intros ->. reflexivity.
  - intros H. destruct Hcase as [|(b & rest & Hl)]; [assumption|].
    rewrite Hl, batch_cell_spec in H. discriminate.
  - intros ->. reflexivity.
Qed.

(** ** More on the timing cells *)

Lemma latency_cell_head (ds : list (image * nat)) (N : Z) (w : World) :
  ds <> [] ->
  latency_cell N (test_loader ds) w
  = (Ok (map fst (firstn 1 ds), durations (reads w) (Z.to_nat N)),
     mkWorld (reads w + 2 * Z.to_nat N)
             (trace w ++ Run (map fst (firstn 1 ds))
                :: timed_runs (reads w) (Z.to_nat N)
                              (map fst (firstn 1 ds)))
             (stdout w)).
Proof.
  intros Hds. destruct (test_loader_head Hds) as [rest Hl].
  rewrite Hl, latency_cell_spec. cbn [fst]. now rewrite first_sample.
Qed.

Lemma batch_cell_head (ds : list (image * nat)) (N : Z) (w : World) :
  ds <> [] ->
  batch_cell N (test_loader ds) w
  = (Ok (map fst (firstn 32 ds), durations (reads w) (Z.to_nat N)),
     mkWorld (reads w + 2 * Z.to_nat N)
             (trace w ++ Run (map fst (firstn 32 ds))
                :: timed_runs (reads w) (Z.to_nat N)
                              (map fst (firstn 32 ds)))
             (stdout w)).
Proof.
  intros Hds. destruct (test_loader_head Hds) as [rest Hl].
  rewrite Hl, batch_cell_spec. reflexivity.
Qed.

Lemma batch_fps_cell_spec (batch_input : tensor) (n : Z)
      (batch_times : list Q) (w : World) :
  batch_fps_cell batch_input n batch_times w
  = (Ok (batch_fps batch_input n batch_times),
     mkWorld (reads w) (trace w)
             (stdout w ++ [batch_line (batch_fps batch_input n
                                                 batch_times)])).
Proof. reflexivity. Qed.

(** X5: a trial count of zero or below times nothing: the latency cell
    and the batch cell each make their warm-up call only, read no clock
    and return no sample; the batch throughput cell that follows then
    divides by a zero sum, so the value it prints is non-finite, and it
    raises nothing. *)
Theorem X5_nonpositive_trials_nonfinite_throughput
        (ds : list (image * nat)) (N Nb : Z) (w1 w2 : World)
        (HN : (N <= 0)%Z) (HNb : (Nb <= 0)%Z) (Hds : ds <> []) :
  exists single_sample w1' batch_input w2' w2'',
    latency_cell N (test_loader ds) w1 = (Ok (single_sample, []), w1')
    /\ trace w1' = trace w1 ++ [Run single_sample]
    /\ reads w1' = reads w1
    /\ batch_cell Nb (test_loader ds) w2 = (Ok (batch_input, []), w2')
    /\ trace w2' = trace w2 ++ [Run batch_input]
    /\ reads w2' = reads w2
    /\ batch_fps_cell batch_input Nb [] w2' = (Ok None, w2'')
    /\ stdout w2''
       = stdout w2 ++ [[Lit "Batch Throughput: "; F2 None; Lit " FPS"]].
Proof.
  rewrite latency_cell_head, batch_cell_head by assumption.
  replace (Z.to_nat N) with 0%nat by lia.
  replace (Z.to_nat Nb) with 0%nat by lia. cbn [durations timed_runs].
  do 5 eexists. split; [reflexivity|]. cbn [reads trace stdout].
  split; [reflexivity|]. split; [lia|]. split; [reflexivity|].
  cbn [reads trace stdout].
  split; [reflexivity|]. split; [lia|].
  rewrite batch_fps_cell_spec. split; reflexivity.
Qed.

Lemma durations_frozen (r n : nat) :
  (forall k, clock k == clock 0%nat) ->
  Forall (fun d => d == 0) (durations r n).
Proof.
  intros Hfrozen. revert r; induction n as [|n IH]; intros r; simpl;
    constructor; auto.
  rewrite (Hfrozen (S r)), (Hfrozen r). ring.
Qed.

Lemma sum_zero (l : list Q) :
  Forall (fun d => d == 0) l -> fold_right Qplus 0 l == 0.
Proof.
  induction 1 as [|x l Hx _ IH]; simpl; [reflexivity|].
  rewrite Hx, IH. ring.
Qed.

Lemma percentile_zero (l : list Q) (q : Q) :
  l <> [] -> 0 <= q -> q <= 100 -> Forall (fun d => d == 0) l ->
  exists p, Np.percentile l q = Ok p /\ p == 0.
Proof.
  intros Hne Hq Hq' Hall.
  destruct (percentile_range Hne Hq Hq') as (p & Hp & Hlo & Hhi).
  exists p. split; [assumption|].
  rewrite Forall_forall in Hall.
  assert (Hlen : (0 < length (Np.sort l))%nat).
  { rewrite sort_length. destruct l; [congruence|simpl; lia]. }
  assert (H0 : nth 0 (Np.sort l) 0 == 0)
    by (apply Hall, sort_In, nth_In; lia).
  assert (H1 : nth (length l - 1) (Np.sort l) 0 == 0)
    by (apply Hall, sort_In, nth_In; rewrite sort_length in *; lia).
  lra.
Qed.

(** X6: when the clock is too coarse to see the runs (every reading is
    the same), the N >= 1 recorded samples are all zero, the three
    percentiles are zero, and the single-sample throughput divides by a
    zero sum: its value is non-finite, and nothing is raised. *)
Theorem X6_frozen_clock_zero_latencies
        (ds : list (image * nat)) (N : Z) (w : World)
        (HN : (1 <= N)%Z) (Hds : ds <> [])
        (Hfrozen : forall k, clock k == clock 0%nat) :
  exists single_sample lat w',
    latency_cell N (test_loader ds) w = (Ok (single_sample, lat), w')
    /\ length lat = Z.to_nat N
    /\ Forall (fun d => d == 0) lat
    /\ (exists p, Np.percentile lat 50 = Ok p /\ p == 0)
    /\ (exists p, Np.percentile lat 95 = Ok p /\ p == 0)
    /\ (exists p, Np.percentile lat 99 = Ok p /\ p == 0)
    /\ single_sample_fps N lat = None.
Proof.
  rewrite latency_cell_head by assumption.
  pose proof (durations_frozen (reads w) (Z.to_nat N) Hfrozen) as Hzero.
  assert (Hne : durations (reads w) (Z.to_nat N) <> []).
  { intros E. apply (f_equal (@length Q)) in E.
    rewrite durations_length in E. simpl in E. lia. }
  do 3 eexists. split; [reflexivity|].
  split; [apply durations_length|]. split; [exact Hzero|].
  repeat split; try (apply percentile_zero; auto; lra).
  unfold single_sample_fps, Np.true_divide.
  rewrite (Qeq_eq_bool _ 0); [reflexivity|].
  rewrite np_sum_total. now apply sum_zero.
Qed.

Lemma durations_positive (r n : nat) :
  (forall k, clock k < clock (S k)) -> Forall (Qlt 0) (durations r n).
Proof.
  intros Hstrict. revert r; induction n as [|n IH]; intros r; simpl;
    constructor; auto.
  specialize (Hstrict r). lra.
Qed.

Lemma durations_sum_le (r n : nat) :
  (forall k, clock k <= clock (S k)) ->
  fold_right Qplus 0 (durations r (S n))
  <= clock (S (r + 2 * n)) - clock r.
Proof.
  intros Hmono. revert r; induction n as [|n IH]; intros r.
  - simpl. rewrite Nat.add_0_r. lra.
  - change (durations r (S (S n)))
      with ((clock (S r) - clock r) :: durations (S (S r)) (S n)).
    cbn [fold_right]. specialize (IH (S (S r))).
    replace (S (S (S r) + 2 * n)) with (S (r + 2 * S n)) in IH by lia.
    pose proof (Hmono (S r)). lra.
Qed.

Lemma sum_positive (l : list Q) :
  l <> [] -> Forall (Qlt 0) l -> 0 < fold_right Qplus 0 l.
Proof.
  intros Hne Hall. destruct Hall as [|x l Hx Hl]; [congruence|].
  simpl. clear Hne.
  assert (0 <= fold_right Qplus 0 l).
  { induction Hl as [|y l Hy _ IH]; simpl; lra. }
  lra.
Qed.

(** X7: with a clock that advances at every reading, N >= 1 trials give
    N strictly positive samples whose sum is at most the wall time between
    the first and the last reading of the loop; the single-sample
    throughput is then finite, positive, and at least N divided by that
    wall time: time spent outside the timed calls is not counted. *)
Theorem X7_timed_sum_within_wall_time
        (ds : list (image * nat)) (N : Z) (w : World)
        (HN : (1 <= N)%Z) (Hds : ds <> [])
        (Hclock : forall k, clock k < clock (S k)) :
  let wall := clock (reads w + 2 * Z.to_nat N - 1) - clock (reads w) in
  exists single_sample lat w' fps,
    latency_cell N (test_loader ds) w = (Ok (single_sample, lat), w')
    /\ Forall (Qlt 0) lat
    /\ 0 < fold_right Qplus 0 lat
    /\ fold_right Qplus 0 lat <= wall
    /\ single_sample_fps N lat = Some fps
    /\ 0 < fps
    /\ inject_Z N <= fps * wall.
Proof.
  intros wall. rewrite latency_cell_head by assumption.
  set (lat := durations (reads w) (Z.to_nat N)).
  assert (Hpos : Forall (Qlt 0) lat) by now apply durations_positive.
  assert (Hne : lat <> []).
  { intros E. apply (f_equal (@length Q)) in E. unfold lat in E.
    rewrite durations_length in E. simpl in E. lia. }
  pose proof (sum_positive Hne Hpos) as Hsum.
  assert (Hwall : fold_right Qplus 0 lat <= wall).
  { unfold lat, wall. destruct (Z.to_nat N) as [|n] eqn:E; [lia|].
    replace (reads w + 2 * S n - 1)%nat with (S (reads w + 2 * n)) by lia.
    apply durations_sum_le. intros k. apply Qlt_le_weak, Hclock. }
  assert (HNq : 0 < inject_Z N)
    by (change 0 with (inject_Z 0); rewrite <- Zlt_Qlt; lia).
  assert (Hdiv : single_sample_fps N lat
                 = Some (inject_Z N / Np.sum lat)).
  { unfold single_sample_fps. apply true_divide_nonzero.
    rewrite np_sum_total. lra. }
  assert (Hfps : 0 < inject_Z N / Np.sum lat).
  { rewrite np_sum_total. apply Qlt_shift_div_l; lra. }
  do 4 eexists. split; [reflexivity|].
  split; [exact Hpos|]. split; [exact Hsum|]. split; [exact Hwall|].
  split; [exact Hdiv|]. split; [exact Hfps|].
  assert (Heq : inject_Z N / Np.sum lat * fold_right Qplus 0 lat
                == inject_Z N).
  { rewrite np_sum_total. field. lra. }
  rewrite <- Heq at 1.
  apply Qmult_le_l; [exact Hfps|exact Hwall].
Qed.

(** ** The whole notebook *)

Lemma size_cell_spec (path : string) (sz : Z) (w : World) :
  getsize path = Some sz ->
  size_cell path w
  = (Ok sz, mkWorld (reads w) (trace w) (stdout w ++ [size_line sz])).
Proof.
  intros H. unfold size_cell, os_path_getsize, bind, print, ret.
  now rewrite H.
Qed.

Lemma batch_hits_bounded (ds : list (image * nat)) (b : batch) :
  (forall x, length (ort_session x) = length x) ->
  (forall x row, In row (ort_session x) -> row <> []) ->
  In b (test_loader ds) ->
  exists h, batch_hits b = Ok h
            /\ (0 <= h <= Z.of_nat (length (snd b)))%Z.
Proof.
  intros Hshape Hclasses Hb. unfold batch_hits.
  destruct (@argmax_axis1_total (ort_session (fst b)))
    as (predicted & -> & Hlen); [apply Hclasses|].
  rewrite Hshape, (test_loader_aligned _ _ Hb) in Hlen.
  rewrite (equal_same_shape _ _ Hlen). eexists. split; [reflexivity|].
  pose proof (count_true_bounds (Np.zip_eq predicted (snd b))) as Hc.
  rewrite (zip_eq_length _ _ Hlen) in Hc. exact Hc.
Qed.

Lemma durations_nonempty (r n : nat) :
  (0 < n)%nat -> durations r n <> [].
Proof. destruct n; [lia|discriminate]. Qed.

Lemma runs_of_map_Run (l : list batch) :
  runs_of (map (fun b => Run (fst b)) l) = map fst l.
Proof. induction l as [|b l IH]; simpl; [reflexivity|now rewrite IH]. Qed.

(** X11: on a non-empty dataset, with a session that returns one non-empty
    row of scores per input row and with the model file in place, the
    measurement cells run to the end in order: total is the dataset size
    and 0 <= correct <= total; 100 latency samples are kept; the clock is
    read 300 times; the session is called once per batch of the loader,
    then 101 times on the first sample and 51 times on the first batch;
    and the seven lines of the final summary are exactly the seven lines
    the earlier cells printed, in the same order. *)
Theorem X11_notebook_runs_to_summary
        (ds : list (image * nat)) (onnx_model_path : string) (sz : Z)
        (w : World)
        (Hds : ds <> [])
        (Hshape : forall x, length (ort_session x) = length x)
        (Hclasses : forall x row, In row (ort_session x) -> row <> [])
        (Hfile : getsize onnx_model_path = Some sz) :
  exists v w',
    notebook ds onnx_model_path w = (Ok v, w')
    /\ total v = Z.of_nat (length ds)
    /\ (0 <= correct v <= total v)%Z
    /\ model_size v = sz
    /\ num_trials v = 100%Z
    /\ length (latencies v) = 100%nat
    /\ reads w' = (reads w + 300)%nat
    /\ runs_of (trace w')
       = runs_of (trace w)
         ++ map fst (test_loader ds)
         ++ repeat (map fst (firstn 1 ds)) 101
         ++ repeat (map fst (firstn 32 ds)) 51
    /\ stdout w' = stdout w ++ summary_lines v ++ summary_lines v.
Proof.
  assert (Hok : forall b, In b (test_loader ds) ->
                          exists h, batch_hits b = Ok h).
  { intros b Hb.
    destruct (@batch_hits_bounded ds b) as (h & Hh & _); eauto. }
  assert (Hbound : (0 <= sum_hits (test_loader ds)
                    <= sum_sizes (test_loader ds))%Z).
  { apply sum_hits_bounds. intros b Hb.
    destruct (@batch_hits_bounded ds b) as (h & Hh & Hb'); auto.
    unfold hits_of. now rewrite Hh. }
  pose proof (dataset_size_pos Hds) as Hpos.
  assert (Hnz : sum_sizes (test_loader ds) <> 0%Z)
    by (rewrite sum_sizes_test_loader; lia).
  unfold notebook. cbv zeta.
  erewrite bind_ok by (apply accuracy_cell_spec; assumption).
  cbv beta iota.
  erewrite bind_ok by reflexivity.
  erewrite bind_ok by (apply size_cell_spec; eassumption).
  erewrite bind_ok by (apply latency_cell_head; assumption).
  cbn [snd fst].
  erewrite bind_ok
    by (apply latency_stats_cell_spec, durations_nonempty; lia).
  erewrite bind_ok by (apply batch_cell_head; assumption).
  cbn [snd fst].
  erewrite bind_ok by apply batch_fps_cell_spec.
  erewrite bind_ok
    by (apply summary_cell_spec; cbn [latencies];
        apply durations_nonempty; lia).
  unfold ret. do 2 eexists. split; [reflexivity|].
  cbn [total correct model_size num_trials latencies reads trace stdout].
  rewrite sum_sizes_test_loader in *.
  split; [reflexivity|]. split; [exact Hbound|].
  split; [reflexivity|]. split; [reflexivity|].
  split; [apply durations_length|]. split; [simpl; lia|]. split.
  - rewrite !runs_of_app. cbn [runs_of].
    rewrite !runs_of_timed_runs, runs_of_map_Run.
    rewrite <- !app_assoc. reflexivity.
  - unfold summary_lines.
    cbn [accuracy correct total model_size latencies num_trials
         v_batch_fps].
    rewrite <- !app_assoc. cbn [app]. reflexivity.
Qed.

End Notebook.

(** ** Stub sessions *)

Lemma one_hot_highest (c : nat) :
  (c < 3)%nat -> scores_highest (Stub.one_hot c) c.
Proof.
  intros Hc. exists 1. split.
  - destruct c as [|[|[|c]]]; [reflexivity..|lia].
  - intros j t Hj Ht.
    destruct c as [|[|[|c]]]; [| | |lia];
      destruct j as [|[|[|j]]]; try congruence;
      simpl in Ht; try discriminate;
      try (destruct j; discriminate);
      injection Ht as <-; reflexivity.
Qed.

Lemma one_hot_wrong (c : nat) :
  (c < 3)%nat -> predicts_wrong (Stub.one_hot ((c + 1) mod 3)) c.
Proof.
  intros Hc.
  destruct c as [|[|[|c]]]; [| | |lia];
    eexists; (split; [vm_compute; reflexivity|discriminate]).
Qed.


Lemma stub_dataset_classes (b : batch nat) :
  In b (test_loader Stub.dataset) ->
  fst b = snd b /\ Forall (fun c => (c < 3)%nat) (snd b).
Proof.
  intros Hb. vm_compute in Hb.
  destruct Hb as [<-|[<-|[]]]; (split; [reflexivity|]);
    repeat constructor.
Qed.

Lemma stub_oracle_scores (b : batch nat) :
  In b (test_loader Stub.dataset) ->
  Forall2 scores_highest (Stub.oracle_session (fst b)) (snd b).
Proof.
  intros Hb. destruct (stub_dataset_classes Hb) as [-> Hc].
  unfold Stub.oracle_session.
  induction Hc as [|c l Hc _ IH]; simpl; constructor; auto.
  now apply one_hot_highest.
Qed.

Lemma stub_wrong_scores (b : batch nat) :
  In b (test_loader Stub.dataset) ->
  Forall2 predicts_wrong (Stub.wrong_session (fst b)) (snd b).
Proof.
  intros Hb. destruct (stub_dataset_classes Hb) as [-> Hc].
  unfold Stub.wrong_session.
  induction Hc as [|c l Hc _ IH]; simpl; constructor; auto.
  now apply one_hot_wrong.
Qed.

(** ** Accuracy with stub sessions *)

(** C6: on a non-empty dataset the accuracy cell calls the session on every
    batch of the loader exactly once, in loader order, and the batches are
    the dataset in dataset order; with a session that always scores the
    labelled class highest it yields correct = total (the dataset size) and
    accuracy 100; with a session whose arg-max is always another class it
    yields correct = 0 and accuracy 0. *)
Theorem C6_accuracy_cell_stub_sessions
        (image : Type) (good bad : tensor image -> list (list Q))
        (ds : list (image * nat)) (w : World image)
        (Hds : ds <> [])
        (Hgood : forall b, In b (test_loader ds) ->
                           Forall2 scores_highest (good (fst b)) (snd b))
        (Hbad : forall b, In b (test_loader ds) ->
                          Forall2 predicts_wrong (bad (fst b)) (snd b)) :
  concat (map fst (test_loader ds)) = map fst ds
  /\ concat (map snd (test_loader ds)) = map snd ds
  /\ (exists acc w',
        accuracy_cell good (test_loader ds) w
        = (Ok (Z.of_nat (length ds), Z.of_nat (length ds), acc), w')
        /\ acc == 100
        /\ trace w' = trace w ++ map (fun b => Run (fst b)) (test_loader ds)
        /\ reads w' = reads w)
  /\ (exists acc w',
        accuracy_cell bad (test_loader ds) w
        = (Ok (0%Z, Z.of_nat (length ds), acc), w')
        /\ acc == 0
        /\ trace w' = trace w ++ map (fun b => Run (fst b)) (test_loader ds)
        /\ reads w' = reads w).
Proof.
  split; [apply test_loader_images|].
  split; [apply test_loader_labels|].
  split.
  - destruct (accuracy_all_correct good w Hds Hgood) as (acc & Hrun & Hacc).
    rewrite Hrun. do 2 eexists. split; [reflexivity|]. auto.
  - destruct (accuracy_all_wrong bad w Hds Hbad) as (acc & Hrun & Hacc).
    rewrite Hrun. do 2 eexists. split; [reflexivity|]. auto.
Qed.

(** ** Concrete runs *)

(** numpy gives the same values: [np.percentile([4, 1, 3, 2], q)] is 2.5,
    3.85 and 3.97 at 50, 95 and 99; it raises on an empty sequence and on
    a q outside [0, 100]. *)
Example percentile_values :
  exists p50 p95 p99,
    Np.percentile [4; 1; 3; 2] 50 = Ok p50 /\ p50 == 2.5
    /\ Np.percentile [4; 1; 3; 2] 95 = Ok p95 /\ p95 == 3.85
    /\ Np.percentile [4; 1; 3; 2] 99 = Ok p99 /\ p99 == 3.97
    /\ Np.percentile [] 50 = Raise IndexError
    /\ Np.percentile [4; 1; 3; 2] 150 = Raise ValueError
    /\ Np.percentile [4; 1; 3; 2] (-5) = Raise ValueError.
Proof.
  do 3 eexists. repeat (split; [vm_compute; reflexivity|]). reflexivity.
Qed.

(** [format(x, ".2f")] as Python shows it. *)
Example format_2f_values :
  Py.format_2f 1.048576 = "1.05"%string
  /\ Py.format_2f 8.92 = "8.92"%string
  /\ Py.format_2f 90.5886 = "90.59"%string
  /\ Py.format_2f 0.125 = "0.12"%string
  /\ Py.format_2f 0.375 = "0.38"%string
  /\ Py.format_2f (-0.001) = "-0.00"%string
  /\ Py.format_2f 1103.28 = "1103.28"%string.
Proof. vm_compute. repeat split. Qed.

(** The batch throughput is the total over the total, not the mean of the
    per-call rates: a batch of 2 timed at 1 s and 3 s gives 1 sample per
    second, where the per-call mean would be 4/3. *)
Example batch_fps_is_not_per_call_mean :
  exists fps,
    batch_fps [0%nat; 1%nat] 2 [1; 3] = Some fps
    /\ fps == 1
    /\ ~ fps == (2 / 1 + 2 / 3) / 2.
Proof.
  eexists. split; [reflexivity|]. split; [reflexivity|discriminate].
Qed.

(** The accuracy cell on an empty loader divides zero by zero. *)
Example accuracy_cell_empty_loader :
  fst (accuracy_cell Stub.oracle_session [] (fresh_world nat))
  = Raise ZeroDivisionError.
Proof. reflexivity. Qed.

(** The timing cells on an empty loader stop at [next]. *)
Example latency_cell_empty_loader :
  fst (latency_cell Stub.clock Stub.oracle_session 100 []
                    (fresh_world nat))
  = Raise StopIteration.
Proof. reflexivity. Qed.

(** A whole run on the stubs: 40 of 40 correct, 1 + 100 + 1 + 50 session
    calls after the two batches of the accuracy pass, 300 clock readings,
    14 printed lines. *)
Example notebook_on_stubs :
  exists v w',
    notebook Stub.clock Stub.oracle_session Stub.getsize Stub.dataset
             "models/food11.onnx" (fresh_world nat)
    = (Ok v, w')
    /\ correct v = 40%Z /\ total v = 40%Z
    /\ length (latencies v) = 100%nat
    /\ length (runs_of (trace w')) = 154%nat
    /\ reads w' = 300%nat
    /\ length (stdout w') = 14%nat.
Proof.
  do 2 eexists. split; [vm_compute; reflexivity|].
  repeat split; vm_compute; reflexivity.
Qed.



Lemma C2_zero_trials_no_timed_call_witness :
  exists w1 w2,
    latency_cell Stub.clock Stub.oracle_session 0
                 (test_loader Stub.dataset) (fresh_world nat)
    = (Ok ([0%nat], []), w1)
    /\ timed_calls (trace w1) = 0%nat
    /\ batch_cell Stub.clock Stub.oracle_session 0
                  (test_loader Stub.dataset) (fresh_world nat)
       = (Ok (map fst (firstn 32 Stub.dataset), []), w2)
    /\ timed_calls (trace w2) = 0%nat.
Proof.
  destruct (@C2_zero_trials_no_timed_call nat Stub.clock Stub.oracle_session
              Stub.dataset (fresh_world nat))
    as [(s & w1 & Hrun1 & Htr1 & Ht1 & _) (b & w2 & Hrun2 & Htr2 & Ht2 & _)].
  - discriminate.
  - exists w1, w2. simpl in Htr1, Htr2. rewrite Htr1, Htr2.
    assert (Hs : s = [0%nat]).
    { vm_compute in Hrun1. now injection Hrun1 as <- _. }
    assert (Hb : b = map fst (firstn 32 Stub.dataset)).
    { vm_compute in Hrun2. injection Hrun2 as <- _. vm_compute. reflexivity. }
    subst s b. repeat split; assumption.
Defined.

(** A trial count of 0 is not rejected: both cells return normally. *)
Lemma C2_claim_fails :
  fst (latency_cell Stub.clock Stub.oracle_session 0
                    (test_loader Stub.dataset) (fresh_world nat))
  <> Raise InvalidArgument
  /\ fst (batch_cell Stub.clock Stub.oracle_session 0
                     (test_loader Stub.dataset) (fresh_world nat))
     <> Raise InvalidArgument.
Proof. split; vm_compute; discriminate. Qed.

Lemma C3_percentiles_ordered_witness :
  exists p50 p95 p99,
    Np.percentile [4; 1; 3; 2] 50 = Ok p50
    /\ Np.percentile [4; 1; 3; 2] 95 = Ok p95
    /\ Np.percentile [4; 1; 3; 2] 99 = Ok p99
    /\ p50 <= p95 /\ p95 <= p99.
Proof.
  destruct (@C3_percentiles_ordered [4; 1; 3; 2])
    as (p50 & p95 & p99 & H50 & H95 & H99 & H1 & H2 & _).
  - discriminate.
  - exists p50, p95, p99. repeat split; assumption.
Defined.

Lemma C4_batch_throughput_witness :
  exists fps w',
    batch_fps_cell [0%nat; 1%nat] 2 [1; 3] (fresh_world nat)
    = (Ok (Some fps), w')
    /\ fps == (2 * 2) / (1 + 3).
Proof.
  destruct (@C4_batch_throughput nat [0%nat; 1%nat] 2 [1; 3]
              (fresh_world nat))
    as (fps & w' & Hrun & _ & Hfps & _).
  - lia.
  - reflexivity.
  - exists fps, w'. split; [assumption|].
    rewrite Hfps. reflexivity.
Defined.

Lemma C5_single_sample_throughput_witness :
  exists fps,
    single_sample_fps 2 [1; 3] = Some fps /\ fps == 2 / (1 + 3).
Proof.
  destruct (@C5_single_sample_throughput nat 2 [1; 3] (fresh_world nat))
    as (fps & w' & Hfps & _ & _ & Heq & _).
  - lia.
  - reflexivity.
  - exists fps. split; [assumption|]. rewrite Heq. reflexivity.
Defined.

Lemma C6_accuracy_cell_stub_sessions_witness :
  (exists acc w',
      accuracy_cell Stub.oracle_session (test_loader Stub.dataset)
                    (fresh_world nat)
      = (Ok (40%Z, 40%Z, acc), w') /\ acc == 100)
  /\ (exists acc w',
        accuracy_cell Stub.wrong_session (test_loader Stub.dataset)
                      (fresh_world nat)
        = (Ok (0%Z, 40%Z, acc), w') /\ acc == 0).
Proof.
  destruct (@C6_accuracy_cell_stub_sessions nat Stub.oracle_session
              Stub.wrong_session Stub.dataset (fresh_world nat))
    as (_ & _ & (a1 & w1 & Hrun1 & Ha1 & _) & (a2 & w2 & Hrun2 & Ha2 & _)).
  - discriminate.
  - exact stub_oracle_scores.
  - exact stub_wrong_scores.
  - split; do 2 eexists; split; eassumption.
Defined.

Lemma C7_model_size_decimal_megabytes_witness :
  exists mb line w',
    size_cell Stub.getsize "models/food11.onnx" (fresh_world nat)
    = (Ok 1048576%Z, w')
    /\ stdout w' = [line]
    /\ line = [Lit "Model Size on Disk: "; F2 (Some mb); Lit " MB"]
    /\ mb == 1.048576
    /\ render_line line = Some "Model Size on Disk: 1.05 MB"%string.
Proof.
  destruct (@C7_model_size_decimal_megabytes nat Stub.getsize
              "models/food11.onnx" (fresh_world nat))
    as (mb & line & w' & Hrun & Hout & Hline & Hmb & _ & Hshown & _).
  - reflexivity.
  - exists mb, line, w'. repeat split; assumption.
Defined.

(** For a file of 1,048,576 bytes the size cell prints
    "Model Size on Disk: 1.05 MB": the report does not read 1.048576. *)
Lemma C7_claim_fails :
  exists line,
    stdout (snd (size_cell Stub.getsize "models/food11.onnx"
                           (fresh_world nat)))
    = [line]
    /\ render_line line = Some "Model Size on Disk: 1.05 MB"%string
    /\ render_line line
       <> Some "Model Size on Disk: 1.048576 MB"%string.
Proof.
  eexists. split; [vm_compute; reflexivity|].
  split; [vm_compute; reflexivity|]. vm_compute. discriminate.
Qed.

(** The summary cell prints: the world after it is not the world before. *)
Lemma C8_claim_fails :
  snd (summary_cell (mkVars 100 3 3 1048576 [1; 1; 1] 3 (Some 2))
                    (fresh_world nat))
  <> fresh_world nat.
Proof. vm_compute. discriminate. Qed.

Lemma C9_accuracy_counters_invariant_witness :
  exists c t acc w',
    accuracy_cell Stub.wrong_session (test_loader Stub.dataset)
                  (fresh_world nat)
    = (Ok (c, t, acc), w')
    /\ (0 <= c <= t)%Z /\ 0 <= acc /\ acc <= 100.
Proof.
  destruct (@C9_accuracy_counters_invariant nat Stub.wrong_session
              Stub.dataset (fresh_world nat))
    as (_ & _ & H).
  - discriminate.
  - intros x. apply length_map.
  - intros x row Hrow. apply in_map_iff in Hrow.
    destruct Hrow as (c & <- & _). discriminate.
  - exact H.
Defined.

Lemma C10_timing_inputs_are_dataset_head_witness :
  exists lat w1' batch_times w2',
    latency_cell Stub.clock Stub.oracle_session 100
                 (test_loader Stub.dataset) (fresh_world nat)
    = (Ok (map fst (firstn 1 Stub.dataset), lat), w1')
    /\ batch_cell Stub.backwards_clock Stub.wrong_session 50
                  (test_loader Stub.dataset) (mkWorld 7 [Tick nat 6] [])
       = (Ok (map fst (firstn 32 Stub.dataset), batch_times), w2').
Proof.
  destruct (@C10_timing_inputs_are_dataset_head nat Stub.clock
              Stub.oracle_session Stub.dataset 100 50 (fresh_world nat)
              (fresh_world nat))
    as (s & lat & w1' & b & bt & w2' & Hrun1 & _ & _ & Hb & Hs & _).
  { discriminate. }
  destruct (@C10_timing_inputs_are_dataset_head nat Stub.backwards_clock
              Stub.wrong_session Stub.dataset 100 50 (fresh_world nat)
              (mkWorld 7 [Tick nat 6] []))
    as (_ & _ & _ & b' & bt' & w2'' & _ & Hrun2 & _ & Hb' & _).
  { discriminate. }
  subst s b b'. do 4 eexists. split; eassumption.
Defined.

(** ** Concrete runs of the further properties *)

Lemma stub_clock_strict (k : nat) : Stub.clock k < Stub.clock (S k).
Proof. unfold Stub.clock. rewrite <- Zlt_Qlt. lia. Qed.

(** Two of three samples carry the label the oracle scores highest. *)
Lemma X2_accuracy_counts_correct_samples_witness :
  exists acc w',
    accuracy_cell Stub.oracle_session
                  (test_loader [(0, 0); (1, 1); (2, 0)]%nat)
                  (fresh_world nat)
    = (Ok (2%Z, 3%Z, acc), w')
    /\ acc == 200 / 3.
Proof.
  destruct (@X2_accuracy_counts_correct_samples nat Stub.oracle_session
              Stub.one_hot [(0, 0); (1, 1); (2, 0)]%nat (fresh_world nat))
    as (acc & w' & Hrun & Hacc & _).
  - reflexivity.
  - discriminate.
  - discriminate.
  - exists acc, w'. split; [exact Hrun|]. rewrite Hacc. reflexivity.
Defined.

(** The second batch gets scores over no class: the third is never
    run. *)
Lemma X3_accuracy_pass_stops_at_first_failure_witness :
  exists w',
    accuracy_cell Fault.no_class_session
                  [([0], [0]); ([7], [7]); ([1], [1])]%nat
                  (fresh_world nat)
    = (Raise ValueError, w')
    /\ runs_of (trace w') = [[0]; [7]]%nat.
Proof.
  destruct (@X3_accuracy_pass_stops_at_first_failure nat
              Fault.no_class_session [([0], [0])]%nat [([1], [1])]%nat
              ([7], [7])%nat ValueError (fresh_world nat))
    as (w' & Hrun & Hruns & _).
  - intros b' [<-|[]]. eexists. vm_compute. reflexivity.
  - reflexivity.
  - exists w'. split; [exact Hrun|exact Hruns].
Defined.

Lemma X5_nonpositive_trials_nonfinite_throughput_witness :
  exists batch_input w2' w2'',
    batch_cell Stub.clock Stub.oracle_session (-3)
               (test_loader Stub.dataset) (fresh_world nat)
    = (Ok (batch_input, []), w2')
    /\ reads w2' = 0%nat
    /\ batch_fps_cell batch_input (-3) [] w2' = (Ok None, w2'').
Proof.
  destruct (@X5_nonpositive_trials_nonfinite_throughput nat Stub.clock
              Stub.oracle_session Stub.dataset 0 (-3) (fresh_world nat)
              (fresh_world nat))
    as (s & w1' & b & w2' & w2'' & _ & _ & _ & Hrun & _ & Hreads & Hfps & _).
  - lia.
  - lia.
  - discriminate.
  - exists b, w2', w2''. repeat split; assumption.
Defined.

Lemma X6_frozen_clock_zero_latencies_witness :
  exists single_sample lat w',
    latency_cell Fault.frozen_clock Stub.oracle_session 3
                 (test_loader Stub.dataset) (fresh_world nat)
    = (Ok (single_sample, lat), w')
    /\ length lat = 3%nat
    /\ single_sample_fps 3 lat = None.
Proof.
  destruct (@X6_frozen_clock_zero_latencies nat Fault.frozen_clock
              Stub.oracle_session Stub.dataset 3 (fresh_world nat))
    as (s & lat & w' & Hrun & Hlen & _ & _ & _ & _ & Hfps).
  - lia.
  - discriminate.
  - intros k. unfold Fault.frozen_clock. ring.
  - exists s, lat, w'. repeat split; assumption.
Defined.

Lemma X7_timed_sum_within_wall_time_witness :
  exists single_sample lat w' fps,
    latency_cell Stub.clock Stub.oracle_session 3
                 (test_loader Stub.dataset) (fresh_world nat)
    = (Ok (single_sample, lat), w')
    /\ fold_right Qplus 0 lat <= Stub.clock 5 - Stub.clock 0
    /\ single_sample_fps 3 lat = Some fps
    /\ 0 < fps.
Proof.
  destruct (@X7_timed_sum_within_wall_time nat Stub.clock
              Stub.oracle_session Stub.dataset 3 (fresh_world nat))
    as (s & lat & w' & fps & Hrun & _ & _ & Hwall & Hfps & Hpos & _).
  - lia.
  - discriminate.
  - exact stub_clock_strict.
  - exists s, lat, w', fps. repeat split; assumption.
Defined.

Lemma X8_percentile_within_samples_witness :
  exists lo hi,
    In lo [4; 1; 3; 2] /\ In hi [4; 1; 3; 2]
    /\ (exists p, Np.percentile [4; 1; 3; 2] 99 = Ok p
                  /\ lo <= p /\ p <= hi).
Proof.
  destruct (@X8_percentile_within_samples [4; 1; 3; 2])
    as (lo & hi & Hlo & Hhi & _ & Hq & _).
  - discriminate.
  - exists lo, hi. repeat split; try assumption.
    apply Hq; lra.
Defined.

(** Two classes tie for the highest score: the first of them is
    predicted. *)
Lemma X9_argmax_first_maximum_witness :
  exists i,
    Np.argmax [1; 5; 5; 2] = Ok i
    /\ (forall j, (j < i)%nat -> nth j [1; 5; 5; 2] 0 < nth i [1; 5; 5; 2] 0).
Proof.
  destruct (@X9_argmax_first_maximum [1; 5; 5; 2])
    as (_ & i & Hi & _ & _ & Hfirst).
  - discriminate.
  - exists i. split; assumption.
Defined.

Lemma X10_percentile_order_independent_witness :
  exists x y,
    Np.percentile [2; 1] 50 = Ok x
    /\ Np.percentile [1; 2] 50 = Ok y
    /\ x == y.
Proof.
  apply (@X10_percentile_order_independent [2; 1] [1; 2] 50).
  - apply perm_swap.
  - discriminate.
  - lra.
  - lra.
Defined.

Lemma X11_notebook_runs_to_summary_witness :
  exists v w',
    notebook Stub.clock Stub.oracle_session Stub.getsize Stub.dataset
             "models/food11.onnx" (fresh_world nat)
    = (Ok v, w')
    /\ total v = 40%Z
    /\ reads w' = 300%nat
    /\ stdout w' = summary_lines v ++ summary_lines v.
Proof.
  destruct (@X11_notebook_runs_to_summary nat Stub.clock
              Stub.oracle_session Stub.getsize Stub.dataset
              "models/food11.onnx" 1048576 (fresh_world nat))
    as (v & w' & Hrun & Htotal & _ & _ & _ & _ & Hreads & _ & Hout).
  - discriminate.
  - intros x. apply length_map.
  - intros x row Hrow. apply in_map_iff in Hrow.
    destruct Hrow as (c & <- & _). discriminate.
  - reflexivity.
  - exists v, w'. repeat split; assumption.
Defined.
